(** * The agent loops of learn-claude-code, embedded and verified

    A shallow embedding of the context-management pipeline of the
    repository: the conversation store and its three compaction tiers
    (agents/s06_context_compact.py), the progress tracker and its reminder
    (agents/s03_todo_write.py), the sandboxed file tools and the subagent
    launcher (agents/s04_subagent.py).

    Conventions of the embedding.
    - A Python [str] is a [string] holding its UTF-8 encoding; [len] and
      slicing count code points, not bytes.
    - A Python [dict] with a fixed set of keys is a record whose optional
      keys are [option] fields; a dict used as a map is a [gmap].
    - A [list] that the code mutates in place is threaded through the
      functions as a value; [messages[i] = x] is list insert.
    - The model endpoint, the shell, the clock, the terminal and the file
      system are the outside world; they are carried in an explicit
      [World].  The file system is a tree: the regular files with their
      bytes, the directories, and what the operating system refuses for
      reasons the tree does not show (permissions, quotas, names too
      long); no other process changes it while a tool runs, and a write
      the system accepts is carried out in full.  The code runs where
      [IS_WINDOWS] is false; a failure of the endpoint ends the process
      and is no state of the embedding. *)

From Stdlib Require Import Ascii String Qcanon.
From stdpp Require Import numbers gmap strings list fin_maps pretty.

#[local] Open Scope string_scope.
#[local] Open Scope list_scope.

(** ** Python strings *)

Module PyStr.

(** A byte [10xxxxxx] continues a code point started earlier. *)
Definition is_continuation (c : ascii) : bool :=
  let n := nat_of_ascii c in (128 <=? n)%nat && (n <? 192)%nat.

(** [len(s)]: the number of code points. *)
Fixpoint len (s : string) : N :=
  match s with
  | EmptyString => 0
  | String c r => (if is_continuation c then 0 else 1) + len r
  end%N.

(** [s[:n]]: the first [n] code points. *)
Fixpoint take (n : N) (s : string) : string :=
  match s with
  | EmptyString => EmptyString
  | String c r =>
      if is_continuation c then String c (take n r)
      else if (n =? 0)%N then EmptyString
      else String c (take (N.pred n) r)
  end.

(** The code points for which [str.isspace] holds, in UTF-8. *)
Definition whitespace : list string :=
  [ String (ascii_of_nat 9) ""; String (ascii_of_nat 10) "";
    String (ascii_of_nat 11) ""; String (ascii_of_nat 12) "";
    String (ascii_of_nat 13) ""; String (ascii_of_nat 28) "";
    String (ascii_of_nat 29) ""; String (ascii_of_nat 30) "";
    String (ascii_of_nat 31) ""; " ";
    String (ascii_of_nat 194) (String (ascii_of_nat 133) "");
    String (ascii_of_nat 194) (String (ascii_of_nat 160) "");
    String (ascii_of_nat 225) (String (ascii_of_nat 154) (String (ascii_of_nat 128) ""));
    String (ascii_of_nat 226) (String (ascii_of_nat 128) (String (ascii_of_nat 128) ""));
    String (ascii_of_nat 226) (String (ascii_of_nat 128) (String (ascii_of_nat 129) ""));
    String (ascii_of_nat 226) (String (ascii_of_nat 128) (String (ascii_of_nat 130) ""));
    String (ascii_of_nat 226) (String (ascii_of_nat 128) (String (ascii_of_nat 131) ""));
    String (ascii_of_nat 226) (String (ascii_of_nat 128) (String (ascii_of_nat 132) ""));
    String (ascii_of_nat 226) (String (ascii_of_nat 128) (String (ascii_of_nat 133) ""));
    String (ascii_of_nat 226) (String (ascii_of_nat 128) (String (ascii_of_nat 134) ""));
    String (ascii_of_nat 226) (String (ascii_of_nat 128) (String (ascii_of_nat 135) ""));
    String (ascii_of_nat 226) (String (ascii_of_nat 128) (String (ascii_of_nat 136) ""));
    String (ascii_of_nat 226) (String (ascii_of_nat 128) (String (ascii_of_nat 137) ""));
    String (ascii_of_nat 226) (String (ascii_of_nat 128) (String (ascii_of_nat 138) ""));
    String (ascii_of_nat 226) (String (ascii_of_nat 128) (String (ascii_of_nat 168) ""));
    String (ascii_of_nat 226) (String (ascii_of_nat 128) (String (ascii_of_nat 169) ""));
    String (ascii_of_nat 226) (String (ascii_of_nat 128) (String (ascii_of_nat 175) ""));
    String (ascii_of_nat 226) (String (ascii_of_nat 129) (String (ascii_of_nat 159) ""));
    String (ascii_of_nat 227) (String (ascii_of_nat 128) (String (ascii_of_nat 128) "")) ].

(** [s.startswith(p)] *)
Fixpoint startswith (p s : string) : bool :=
  match p, s with
  | EmptyString, _ => true
  | String a p', String b s' => if decide (a = b) then startswith p' s' else false
  | String _ _, EmptyString => false
  end.

Fixpoint drop (n : nat) (s : string) : string :=
  match n, s with
  | O, _ => s
  | S k, String _ r => drop k r
  | S _, EmptyString => EmptyString
  end.

(** The white-space code point [s] starts with, if any. *)
Definition leading_space (s : string) : option string :=
  head (filter (λ w, startswith w s = true) whitespace).

(** [s.lstrip()], by recursion on a bound for the number of code points
    removed. *)
Fixpoint lstrip_fuel (fuel : nat) (s : string) : string :=
  match fuel with
  | O => s
  | S k => match leading_space s with
           | Some w => lstrip_fuel k (drop (String.length w) s)
           | None => s
           end
  end.

Definition lstrip (s : string) : string := lstrip_fuel (String.length s) s.

(** Reversal by code point: the continuation bytes stay behind their
    leading byte. *)
Fixpoint rev_points (acc cur : string) (s : string) : string :=
  match s with
  | EmptyString => cur +:+ acc
  | String c r =>
      if is_continuation c then rev_points acc (cur +:+ String c "") r
      else rev_points (cur +:+ acc) (String c "") r
  end.

Definition reverse (s : string) : string := rev_points "" "" s.

(** [s.strip()] *)
Definition strip (s : string) : string :=
  reverse (lstrip (reverse (lstrip s))).

(** [s.lower()] on the ASCII letters; the three status words of the
    progress list contain no letter that a non-ASCII code point lowers
    to, so membership in them is decided as Python decides it. *)
Definition lower_ascii (c : ascii) : ascii :=
  let n := nat_of_ascii c in
  if (65 <=? n)%nat && (n <=? 90)%nat then ascii_of_nat (n + 32) else c.

Fixpoint lower (s : string) : string :=
  match s with
  | EmptyString => EmptyString
  | String c r => String (lower_ascii c) (lower r)
  end.

(** [a in b] for strings. *)
Fixpoint contains (needle hay : string) : bool :=
  startswith needle hay ||
  match hay with
  | EmptyString => false
  | String _ r => contains needle r
  end.

(** [list(s)]: the code points of [s], each a string. *)
Fixpoint points_from (cur : string) (s : string) : list string :=
  match s with
  | EmptyString => if decide (cur = "") then [] else [cur]
  | String c r =>
      if is_continuation c then points_from (cur +:+ String c "") r
      else if decide (cur = "") then points_from (String c "") r
      else cur :: points_from (String c "") r
  end.

Definition points (s : string) : list string := points_from "" s.

End PyStr.

(** ** Values, exceptions and results *)

(** A [float] as [json.loads] returns it for a number with a fraction or
    an exponent, and for the literals [NaN], [Infinity] and [-Infinity]. *)
Inductive pyfloat :=
  | Finite (q : Qc)
  | Infinity
  | NegInfinity
  | NaN.

(** A value as [json.loads] returns it. *)
#[warnings="-register-all"] Inductive pyval :=
  | PNone
  | PBool (b : bool)
  | PInt (z : Z)
  | PFloat (x : pyfloat)
  | PStr (s : string)
  | PList (l : list pyval)
  | PDict (d : gmap string pyval).

(** [bool(x)] *)
Definition truthy (x : pyval) : bool :=
  match x with
  | PNone => false
  | PBool b => b
  | PInt z => bool_decide (z ≠ 0%Z)
  | PFloat (Finite q) => bool_decide (q ≠ 0%Qc)
  | PFloat _ => true
  | PStr s => bool_decide (s ≠ "")
  | PList l => bool_decide (l ≠ [])
  | PDict d => bool_decide (d ≠ ∅)
  end.

(** The exceptions the code raises or meets. *)
Inductive exn :=
  | ValueError (msg : string)
  | KeyError (key : string)
  | TypeError (msg : string)
  | AttributeError (msg : string)
  | OSError (msg : string)
  | RecursionError (msg : string)
  | UnicodeError (msg : string).

(** [str(e)]; a [KeyError] shows the repr of its key. *)
Definition str_exn (e : exn) : string :=
  match e with
  | ValueError m | TypeError m | AttributeError m | OSError m
  | RecursionError m | UnicodeError m => m
  | KeyError k => "'" +:+ k +:+ "'"
  end.

(** What [json.loads] comes back with: a value, the [JSONDecodeError] the
    loops catch, or another exception, which they do not catch: a
    [RecursionError] on a deeply nested payload, a plain [ValueError] on an
    integer of more than 4300 digits. *)
Inductive loaded :=
  | Loaded (value : pyval)
  | JSONDecodeError
  | LoadsRaises (e : exn).

(** The outcome of a call: a value, an exception that propagates, or a
    [while True] loop still running when the iteration budget of the
    embedding is spent. *)
Inductive result (A : Type) :=
  | Ok (a : A)
  | Raise (e : exn)
  | OutOfFuel.
Arguments Ok {A} a.
Arguments Raise {A} e.
Arguments OutOfFuel {A}.

(** ** Messages *)

(** One entry of an assistant message's ["tool_calls"]:
    [{"id", "type": "function", "function": {"name", "arguments"}}]. *)
Record tool_call := ToolCall {
  tc_id : string;
  tc_name : string;
  tc_arguments : string;
}.

(** A message dict; [None] stands for an absent key. *)
Record message := Message {
  role : string;
  content : option string;
  tool_calls : option (list tool_call);
  tool_call_id : option string;
}.

#[global] Instance tool_call_eq_dec : EqDecision tool_call.
Proof. solve_decision. Defined.
#[global] Instance message_eq_dec : EqDecision message.
Proof. solve_decision. Defined.

(** [{**msg, "content": c}] *)
Definition with_content (msg : message) (c : string) : message :=
  {| role := role msg; content := Some c;
     tool_calls := tool_calls msg; tool_call_id := tool_call_id msg |}.

Definition user_message (c : string) : message :=
  {| role := "user"; content := Some c; tool_calls := None; tool_call_id := None |}.
Definition system_message (c : string) : message :=
  {| role := "system"; content := Some c; tool_calls := None; tool_call_id := None |}.
Definition assistant_message (c : string) : message :=
  {| role := "assistant"; content := Some c; tool_calls := None; tool_call_id := None |}.
Definition assistant_calls_message (c : string) (tcs : list tool_call) : message :=
  {| role := "assistant"; content := Some c; tool_calls := Some tcs; tool_call_id := None |}.
Definition tool_message (id c : string) : message :=
  {| role := "tool"; content := Some c; tool_calls := None; tool_call_id := Some id |}.

(** ** The outside world *)

(** A request to [client.chat.completions.create]. *)
Record request := Request {
  rq_messages : list message;
  rq_tools : option (list string);
  rq_max_tokens : N;
}.

(** [response.choices[0].message]: its [content] (possibly [None]) and its
    [tool_calls] ([None] and the empty list are not told apart by the
    code, which reads them through [or []]). *)
Record response := Response {
  rs_content : option string;
  rs_tool_calls : list tool_call;
}.

(** What [subprocess.run] with a timeout comes back with: the decoded
    output, the [TimeoutExpired] the tool catches, or another exception,
    which it does not catch: a [UnicodeDecodeError] on output that is not in
    the encoding of the locale, a [ValueError] on a NUL in the command, a
    [TypeError] on a command that is no text. *)
Inductive shell_result :=
  | Completed (stdout_stderr : string)
  | TimeoutExpired
  | RunRaises (e : exn).

(** A validated item of the progress list. *)
Record todo_item := TodoItem {
  todo_id : string;
  todo_text : string;
  todo_status : string;
}.

(** A resolved path is the list of its components below the root. *)
Abbreviation path := (list string).

(** What the code asks of the file system: to open a file for reading, to
    open it for writing, to make a directory. *)
Inductive access := Reading | Writing | Making.

(** The error numbers a tree gives rise to. *)
Inductive errno := ENOENT | EEXIST | ENOTDIR | EISDIR.

(** The file system: the regular files with their bytes, the directories
    (the root is one), and the exception with which the operating system
    refuses an access for a reason the tree does not show. *)
Record disk := Disk {
  disk_files : gmap path string;
  disk_dirs : gset path;
  disk_refuses : access → path → option exn;
}.

(** The state the code reads and writes: the file system, the number of
    clock readings taken so far, the requests sent to the model endpoint,
    the lines printed, and the items of the global [TODO] object. *)
Record World := {
  files : gmap path string;
  dirs : gset path;
  refuses : access → path → option exn;
  clock_reads : nat;
  requests : list request;
  stdout : list string;
  todo_items : list todo_item;
}.

(** The library and system calls the code relies on and does not define. *)
Class Externals := {
  (** [Path.cwd()], resolved *)
  WORKDIR : path;
  (** [Path.resolve] on the components of a joined path: symbolic links and
      [..] are the file system's business, and so are its failures *)
  resolve : list string → exn + path;
  (** [json.loads] *)
  json_loads : string → loaded;
  (** [json.dumps(msg, default=str, ensure_ascii=False)] *)
  json_dumps : message → string;
  (** [str(messages)] *)
  str_messages : list message → string;
  (** [str(v)] of a list or a dict *)
  py_repr : pyval → string;
  (** the endpoint: its reply to the last request of the log *)
  chat : list request → response;
  (** [int(time.time())] at the n-th reading *)
  time_time : nat → Z;
  (** [subprocess.run(command, shell=True, ...)] in the working directory,
      for a command that is a text *)
  shell : string → disk → shell_result * disk;
  (** the same for a command that is a list or a dict, of which the shell
      gets the elements or the keys *)
  shell_seq : pyval → disk → shell_result * disk;
  (** [bytes.decode("utf-8", errors="replace")] on the bytes of a file *)
  decode : string → string;
  (** [str.encode("utf-8", errors="replace")] *)
  encode : string → string;
  (** [str.encode] in the encoding of the locale, which is strict *)
  encode_locale : string → exn + string;
  (** [print]: the [UnicodeEncodeError] of a line the terminal cannot show *)
  terminal : string → option exn;
  (** the text of the [OSError] for an error number and a path *)
  strerror : errno → path → string;
  (** the text of the [TypeError] or [AttributeError] of the named
      operation on a value of the wrong type *)
  error_text : string → pyval → string;
}.

(** ** A state and exception monad *)

Definition M (S A : Type) : Type := S → result A * S.

#[global] Instance M_ret {S} : MRet (M S) := λ A a s, (Ok a, s).
#[global] Instance M_bind {S} : MBind (M S) := λ A B f m s,
  match m s with
  | (Ok a, s') => f a s'
  | (Raise e, s') => (Raise e, s')
  | (OutOfFuel, s') => (OutOfFuel, s')
  end.

Definition raise {S A} (e : exn) : M S A := λ s, (Raise e, s).
Definition out_of_fuel {S A} : M S A := λ s, (OutOfFuel, s).
Definition get {S} : M S S := λ s, (Ok s, s).
Definition put {S} (s : S) : M S unit := λ _, (Ok tt, s).
Definition modify {S} (f : S → S) : M S unit := λ s, (Ok tt, f s).

(** [try: m  except Exception as e: h e] *)
Definition try_except {S A} (m : M S A) (h : exn → M S A) : M S A := λ s,
  match m s with
  | (Raise e, s') => h e s'
  | r => r
  end.

(** [for x in xs: body x] *)
Fixpoint for_each {S A} (xs : list A) (body : A → M S unit) : M S unit :=
  match xs with
  | [] => mret tt
  | x :: rest => body x ≫= λ _, for_each rest body
  end.

(** A call that returns or raises, as a computation. *)
Definition of_sum {S A} (r : exn + A) : M S A :=
  match r with
  | inl e => raise e
  | inr a => mret a
  end.

(** ** Access to the world *)

Definition set_files (fs : gmap path string) (w : World) : World :=
  {| files := fs; dirs := dirs w; refuses := refuses w;
     clock_reads := clock_reads w; requests := requests w;
     stdout := stdout w; todo_items := todo_items w |}.
Definition set_dirs (ds : gset path) (w : World) : World :=
  {| files := files w; dirs := ds; refuses := refuses w;
     clock_reads := clock_reads w; requests := requests w;
     stdout := stdout w; todo_items := todo_items w |}.
Definition set_todo_items (items : list todo_item) (w : World) : World :=
  {| files := files w; dirs := dirs w; refuses := refuses w;
     clock_reads := clock_reads w; requests := requests w;
     stdout := stdout w; todo_items := items |}.
Definition add_stdout (line : string) (w : World) : World :=
  {| files := files w; dirs := dirs w; refuses := refuses w;
     clock_reads := clock_reads w; requests := requests w;
     stdout := stdout w ++ [line]; todo_items := todo_items w |}.

(** The file system of the world, and the world on another one. *)
Definition disk_of (w : World) : disk :=
  {| disk_files := files w; disk_dirs := dirs w; disk_refuses := refuses w |}.
Definition set_disk (d : disk) (w : World) : World :=
  {| files := disk_files d; dirs := disk_dirs d; refuses := disk_refuses d;
     clock_reads := clock_reads w; requests := requests w;
     stdout := stdout w; todo_items := todo_items w |}.

(** The line feed; string literals have no escapes. *)
Definition nl : string := String (ascii_of_nat 10) "".
Definition cr : string := String (ascii_of_nat 13) "".

(** [sep.join(parts)] *)
Fixpoint join (sep : string) (parts : list string) : string :=
  match parts with
  | [] => ""
  | [x] => x
  | x :: rest => x +:+ sep +:+ join sep rest
  end.

(** [str(path)] *)
Definition path_str (p : path) : string := "/" +:+ join "/" p.

Section World.
Context `{Externals}.

(** [print(line)]: the line is shown, or the terminal cannot encode it. *)
Definition print (line : string) : M World unit := λ w,
  match terminal line with
  | Some e => (Raise e, w)
  | None => (Ok tt, add_stdout line w)
  end.

(** [client.chat.completions.create(...)]: the request is logged and the
    endpoint answers the log. *)
Definition chat_create (rq : request) : M World response := λ w,
  let log := requests w ++ [rq] in
  (Ok (chat log),
   {| files := files w; dirs := dirs w; refuses := refuses w;
      clock_reads := clock_reads w; requests := log;
      stdout := stdout w; todo_items := todo_items w |}).

(** [int(time.time())] *)
Definition time_now : M World Z := λ w,
  (Ok (time_time (clock_reads w)),
   {| files := files w; dirs := dirs w; refuses := refuses w;
      clock_reads := S (clock_reads w); requests := requests w;
      stdout := stdout w; todo_items := todo_items w |}).

(** *** The tree *)

Definition is_dir (w : World) (p : path) : bool :=
  bool_decide (p = [] ∨ p ∈ dirs w).
Definition is_file (w : World) (p : path) : bool :=
  bool_decide (is_Some (files w !! p)).

(** Some proper prefix of [p] is a regular file. *)
Definition below_file (w : World) (p : path) : bool :=
  existsb (λ k, is_file w (take k p)) (seq 0 (length p)).

(** The [OSError] for a path whose parent is no directory. *)
Definition no_parent (w : World) (p : path) : exn :=
  OSError (strerror (if below_file w p then ENOTDIR else ENOENT) p).

(** The universal newlines of a file opened as text: a carriage return,
    with the line feed that follows it if one does, is read as a line
    feed. *)
Fixpoint universal_newlines (s : string) : string :=
  match s with
  | EmptyString => EmptyString
  | String c r =>
      if decide (c = ascii_of_nat 13) then
        match r with
        | String c' r' =>
            if decide (c' = ascii_of_nat 10) then String c' (universal_newlines r')
            else String (ascii_of_nat 10) (universal_newlines r)
        | EmptyString => String (ascii_of_nat 10) EmptyString
        end
      else String c (universal_newlines r)
  end.

(** [path.read_text(encoding="utf-8", errors="replace")] *)
Definition read_text (p : path) : M World string := λ w,
  match refuses w Reading p with
  | Some e => (Raise e, w)
  | None =>
      if is_dir w p then (Raise (OSError (strerror EISDIR p)), w)
      else match files w !! p with
           | Some bytes => (Ok (universal_newlines (decode bytes)), w)
           | None => (Raise (no_parent w p), w)
           end
  end.

(** [open(path, "w")]: the file is there and empty. *)
Definition open_w (p : path) : M World unit := λ w,
  match refuses w Writing p with
  | Some e => (Raise e, w)
  | None =>
      if is_dir w p then (Raise (OSError (strerror EISDIR p)), w)
      else if negb (is_dir w (removelast p)) then (Raise (no_parent w p), w)
      else (Ok tt, set_files (<[p := ""]> (files w)) w)
  end.

(** [path.write_text(text, encoding="utf-8", errors="replace")], and
    [open(path, "w", encoding="utf-8", errors="replace")] followed by the
    writes that make up [text]: the file is created, or its former content
    is replaced. *)
Definition write_text (p : path) (text : string) : M World unit :=
  _ ← open_w p;
  modify (λ w, set_files (<[p := encode text]> (files w)) w).

(** [path.write_text(text)]: the file is opened, and so emptied, before
    the text is encoded. *)
Definition write_text_locale (p : path) (text : string) : M World unit :=
  _ ← open_w p;
  bytes ← of_sum (encode_locale text);
  modify (λ w, set_files (<[p := bytes]> (files w)) w).

(** [os.mkdir(d)] where the parent of [d] is a directory and [d] is not
    there. *)
Definition os_mkdir (d : path) : M World unit := λ w,
  match refuses w Making d with
  | Some e => (Raise e, w)
  | None => (Ok tt, set_dirs ({[ d ]} ∪ dirs w) w)
  end.

(** [d.mkdir(exist_ok=True)] *)
Definition mkdir_exist_ok (d : path) : M World unit := λ w,
  if is_dir w d then (Ok tt, w)
  else if is_file w d then (Raise (OSError (strerror EEXIST d)), w)
  else if is_dir w (removelast d) then os_mkdir d w
  else (Raise (no_parent w d), w).

(** [d.mkdir(parents=True, exist_ok=True)]: a missing parent is made
    first; [fuel] bounds the climb towards the root. *)
Fixpoint mkdir_parents (fuel : nat) (d : path) : M World unit := λ w,
  if is_dir w d then (Ok tt, w)
  else if is_file w d then (Raise (OSError (strerror EEXIST d)), w)
  else if is_dir w (removelast d) then os_mkdir d w
  else if below_file w d then (Raise (OSError (strerror ENOTDIR d)), w)
  else match fuel with
       | O => (Raise (OSError (strerror ENOENT d)), w)
       | S fuel => (_ ← mkdir_parents fuel (removelast d); os_mkdir d) w
       end.

End World.

(** ** Paths *)

(** The parts of [s] between slashes. *)
Fixpoint split_slash (cur : string) (s : string) : list string :=
  match s with
  | EmptyString => [cur]
  | String c r =>
      if decide (c = "/"%char) then cur :: split_slash "" r
      else split_slash (cur +:+ String c "") r
  end.

(** The components pathlib keeps: empty parts and [.] are dropped, [..]
    stays until the path is resolved. *)
Definition components (p : string) : list string :=
  filter (λ c, c ≠ "" ∧ c ≠ ".") (split_slash "" p).

(** [base / p]: an absolute [p] replaces the base. *)
Definition joinpath (base : path) (p : string) : list string :=
  if PyStr.startswith "/" p then components p else base ++ components p.

(** [path.is_relative_to(root)] *)
Definition is_relative_to (p root : path) : bool :=
  bool_decide (root `prefix_of` p).

(** [Path.resolve] where no component is a symbolic link: [..] climbs, and
    stays at the root. *)
Definition lexical_resolve (parts : list string) : path :=
  foldl (λ acc c, if decide (c = "..") then removelast acc else acc ++ [c]) [] parts.

(** ** The tools *)

(** The agents are numbered as their files are; they share the tools up to
    the wording of some results. *)
Inductive variant := S02 | S03 | S04 | S05 | S06.

(** [str.splitlines]: the line boundary [s] starts with, by its length in
    bytes. *)
Definition line_break (s : string) : option nat :=
  if PyStr.startswith (cr +:+ nl) s then Some 2
  else if existsb (λ b, PyStr.startswith b s)
       [ nl; cr; String (ascii_of_nat 11) ""; String (ascii_of_nat 12) "";
         String (ascii_of_nat 28) ""; String (ascii_of_nat 29) "";
         String (ascii_of_nat 30) "" ] then Some 1
  else if PyStr.startswith (String (ascii_of_nat 194) (String (ascii_of_nat 133) "")) s then Some 2
  else if existsb (λ b, PyStr.startswith b s)
       [ String (ascii_of_nat 226) (String (ascii_of_nat 128) (String (ascii_of_nat 168) ""));
         String (ascii_of_nat 226) (String (ascii_of_nat 128) (String (ascii_of_nat 169) "")) ]
       then Some 3
  else None.

Fixpoint splitlines_go (skip : nat) (cur : string) (s : string) : list string :=
  match s with
  | EmptyString => if decide (cur = "") then [] else [cur]
  | String c r =>
      match skip with
      | S k => splitlines_go k cur r
      | O => match line_break s with
             | Some n => cur :: splitlines_go (n - 1) "" r
             | None => splitlines_go 0 (cur +:+ String c "") r
             end
      end
  end.

Definition splitlines (s : string) : list string := splitlines_go 0 "" s.

(** [lines[:limit]]; a negative limit counts from the end. *)
Definition slice_to {A} (limit : Z) (l : list A) : list A :=
  if (limit <? 0)%Z then take (Z.to_nat (Z.of_nat (length l) + limit)) l
  else take (Z.to_nat limit) l.

(** [content.replace(old, new, 1)] *)
Fixpoint replace_first (old new : string) (s : string) : string :=
  if PyStr.startswith old s then new +:+ PyStr.drop (String.length old) s
  else match s with
       | EmptyString => EmptyString
       | String c r => String c (replace_first old new r)
       end.

Definition dangerous : list string :=
  ["rm -rf /"; "sudo"; "shutdown"; "reboot"; "> /dev/"].

Section Tools.
Context `{Externals}.
Variable v : variant.

Definition escape_text (p : string) : string :=
  match v with
  | S02 | S03 => "路径超出工作区：" +:+ p
  | _ => "路径超出工作区: " +:+ p
  end.

Definition safe_path (p : string) : M World path :=
  match resolve (joinpath WORKDIR p) with
  | inl e => raise e
  | inr path =>
      if negb (is_relative_to path WORKDIR) then raise (ValueError (escape_text p))
      else mret path
  end.

(** The [try] of [run_bash] around [subprocess.run]: only the timeout is
    caught. *)
Definition run_shell (run : disk → shell_result * disk) : M World string := λ w,
  match run (disk_of w) with
  | (Completed output, d) =>
      let out := PyStr.strip output in
      (Ok (if decide (out = "") then "（无输出）" else PyStr.take 50000%N out),
       set_disk d w)
  | (TimeoutExpired, d) =>
      (Ok (match v with
           | S02 => "错误：执行超时（120 秒）"
           | _ => "错误：超时（120 秒）"
           end), set_disk d w)
  | (RunRaises e, d) => (Raise e, set_disk d w)
  end.

Definition run_bash (command : string) : M World string :=
  if existsb (λ d, PyStr.contains d command) dangerous
  then mret "错误：已拦截危险命令"
  else run_shell (shell command).

(** [d in command] for a command that is a list (some element equals
    [d]) or a dict (some key does). *)
Definition seq_has (command : pyval) (d : string) : bool :=
  match command with
  | PList l => existsb (λ x, match x with
                             | PStr s => bool_decide (s = d)
                             | _ => false
                             end) l
  | PDict m => bool_decide (is_Some (m !! d))
  | _ => false
  end.

(** [run_bash] on a command that is a list or a dict. *)
Definition run_bash_seq (command : pyval) : M World string :=
  if existsb (seq_has command) dangerous
  then mret "错误：已拦截危险命令"
  else run_shell (shell_seq command).

Definition more_lines (n : Z) : string :=
  match v with
  | S03 => "…（还有 " +:+ pretty n +:+ " 行）"
  | _ => "...（还有 " +:+ pretty n +:+ " 行）"
  end.

Definition run_read (p : string) (limit : option Z) : M World string :=
  try_except
    (path ← safe_path p;
     text ← read_text path;
     let lines := splitlines text in
     let lines :=
       match limit with
       | Some l =>
           if bool_decide (l ≠ 0%Z) && (l <? Z.of_nat (length lines))%Z
           then slice_to l lines ++ [more_lines (Z.of_nat (length lines) - l)]
           else lines
       | None => lines
       end in
     mret (PyStr.take 50000%N (join nl lines)))
    (λ e, mret ("错误：" +:+ str_exn e)).

(** [fp.parent.mkdir(parents=True, exist_ok=True)] *)
Definition make_parent (fp : path) : M World unit :=
  mkdir_parents (length fp) (removelast fp).

Definition run_write (p : string) (text : string) : M World string :=
  try_except
    (fp ← safe_path p;
     _ ← make_parent fp;
     _ ← write_text fp text;
     mret (match v with
           | S02 => "已向 " +:+ p +:+ " 写入 " +:+ pretty (PyStr.len text) +:+ " 字节"
           | _ => "已写入 " +:+ pretty (PyStr.len text) +:+ " 字节"
           end))
    (λ e, mret ("错误：" +:+ str_exn e)).

(** The [write_text] of [run_edit]: s02 leaves the encoding to the
    locale. *)
Definition write_edited (fp : path) (text : string) : M World unit :=
  match v with
  | S02 => write_text_locale fp text
  | _ => write_text fp text
  end.

Definition not_found_text (p : string) : string :=
  match v with
  | S03 => "错误：在 " +:+ p +:+ " 中未找到该文本"
  | _ => "错误：在 " +:+ p +:+ " 中未找到指定文本"
  end.

Definition run_edit (p : string) (old_text new_text : string) : M World string :=
  try_except
    (fp ← safe_path p;
     text ← read_text fp;
     if negb (PyStr.contains old_text text)
     then mret (not_found_text p)
     else
       _ ← write_edited fp (replace_first old_text new_text text);
       mret ("已编辑 " +:+ p))
    (λ e, mret ("错误：" +:+ str_exn e)).

End Tools.

(** ** Tool handlers *)

(** A handler is called as [handler( **args)] and returns the text of its
    result.  The arguments are what [json.loads] made of the payload: where
    one is of another type than the tool schema declares, the handler goes
    as far as Python goes with it. *)
Abbreviation kwargs := (gmap string pyval).
Definition handler := kwargs → M World string.

Section Handlers.
Context `{Externals}.
Variable v : variant.

(** [handler( **args)] needs a mapping. *)
Definition as_kwargs (args : pyval) : M World kwargs :=
  match args with
  | PDict d => mret d
  | _ => raise (TypeError (error_text "**" args))
  end.

(** [kw[key]] *)
Definition kw_item (kw : kwargs) (key : string) : M World pyval :=
  match kw !! key with
  | Some x => mret x
  | None => raise (KeyError key)
  end.

(** A value used where a [str] is needed, in the named operation. *)
Definition as_str (site : string) (x : pyval) : M World string :=
  match x with
  | PStr s => mret s
  | _ => raise (TypeError (error_text site x))
  end.

(** [str(x)] *)
Definition py_str (x : pyval) : string :=
  match x with
  | PStr s => s
  | PInt z => pretty z
  | PNone => "None"
  | PBool true => "True"
  | PBool false => "False"
  | _ => py_repr x
  end.

(** ["bash": lambda **kw: run_bash(kw["command"])]; the test
    [d in command] and [subprocess.run] take a list or a dict as well. *)
Definition handle_bash : handler := λ kw,
  c ← kw_item kw "command";
  match c with
  | PStr command => run_bash v command
  | PList _ | PDict _ => run_bash_seq v c
  | _ => raise (TypeError (error_text "in" c))
  end.

(** [limit < len(lines)] for a limit that is a float. *)
Definition float_below (x : pyfloat) (n : nat) : bool :=
  match x with
  | Finite q => bool_decide (q < Qc_of_Z (Z.of_nat n))%Qc
  | NegInfinity => true
  | Infinity | NaN => false
  end.

(** [run_read] with a limit that is no integer: where it is true and
    below the number of lines, the comparison or the slice raises. *)
Definition run_read_with (p : string) (limit : pyval) : M World string :=
  try_except
    (path ← safe_path v p;
     text ← read_text path;
     let lines := splitlines text in
     if truthy limit then
       match limit with
       | PFloat x =>
           if float_below x (length lines)
           then raise (TypeError (error_text "slice" limit))
           else mret (PyStr.take 50000%N (join nl lines))
       | _ => raise (TypeError (error_text "<" limit))
       end
     else mret (PyStr.take 50000%N (join nl lines)))
    (λ e, mret ("错误：" +:+ str_exn e)).

(** ["read_file": lambda **kw: run_read(kw["path"], kw.get("limit"))];
    a path that is no text fails inside [run_read], which reports it. *)
Definition handle_read_file : handler := λ kw,
  p ← kw_item kw "path";
  match p with
  | PStr p =>
      match kw !! "limit" with
      | None | Some PNone => run_read v p None
      | Some (PInt z) => run_read v p (Some z)
      | Some (PBool b) => run_read v p (Some (Z.b2z b))
      | Some limit => run_read_with p limit
      end
  | _ => mret ("错误：" +:+ error_text "/" p)
  end.

(** [run_write] with a content that is no text: [write_text] refuses it
    after the parent directory is made. *)
Definition run_write_with (p : string) (c : pyval) : M World string :=
  try_except
    (fp ← safe_path v p;
     _ ← make_parent fp;
     raise (TypeError (error_text "write_text" c)))
    (λ e, mret ("错误：" +:+ str_exn e)).

(** ["write_file": lambda **kw: run_write(kw["path"], kw["content"])] *)
Definition handle_write_file : handler := λ kw,
  p ← kw_item kw "path";
  c ← kw_item kw "content";
  match p, c with
  | PStr p, PStr c => run_write v p c
  | PStr p, _ => run_write_with p c
  | _, _ => mret ("错误：" +:+ error_text "/" p)
  end.

(** [run_edit] with texts of any type: the file is read, then the test
    [old_text not in content] needs a text, and then [replace] does. *)
Definition run_edit_with (p : string) (old_text new_text : pyval) : M World string :=
  try_except
    (fp ← safe_path v p;
     text ← read_text fp;
     old_text ← as_str "in" old_text;
     if negb (PyStr.contains old_text text)
     then mret (not_found_text v p)
     else
       new_text ← as_str "replace" new_text;
       _ ← write_edited v fp (replace_first old_text new_text text);
       mret ("已编辑 " +:+ p))
    (λ e, mret ("错误：" +:+ str_exn e)).

(** ["edit_file": lambda **kw: run_edit(kw["path"], kw["old_text"], kw["new_text"])] *)
Definition handle_edit_file : handler := λ kw,
  p ← kw_item kw "path";
  old_text ← kw_item kw "old_text";
  new_text ← kw_item kw "new_text";
  match p, old_text, new_text with
  | PStr p, PStr old_text, PStr new_text => run_edit v p old_text new_text
  | PStr p, _, _ => run_edit_with p old_text new_text
  | _, _, _ => mret ("错误：" +:+ error_text "/" p)
  end.

(** The four entries every [TOOL_HANDLERS] has. *)
Definition base_handlers (name : string) : option handler :=
  if decide (name = "bash") then Some handle_bash
  else if decide (name = "read_file") then Some handle_read_file
  else if decide (name = "write_file") then Some handle_write_file
  else if decide (name = "edit_file") then Some handle_edit_file
  else None.

End Handlers.

(** The names in [CHILD_TOOLS], the tool schema of the basic tools. *)
Definition BASE_TOOLS : list string :=
  ["bash"; "read_file"; "write_file"; "edit_file"].

(** ** The conversation store of a running loop *)

(** The list [messages] an agent loop mutates, next to the world. An
    exception leaves both as they are when it is raised. *)
Record Agent := {
  messages : list message;
  world : World;
}.

(** A computation on the world, run from within a loop. *)
Definition lift {A} (m : M World A) : M Agent A := λ a,
  let '(r, w) := m (world a) in
  (r, {| messages := messages a; world := w |}).

(** [messages.append(msg)] *)
Definition append (msg : message) : M Agent unit :=
  modify (λ a, {| messages := messages a ++ [msg]; world := world a |}).

(** [messages[:] = new] *)
Definition set_messages (new : list message) : M Agent unit :=
  modify (λ a, {| messages := new; world := world a |}).

Definition get_messages : M Agent (list message) :=
  λ a, (Ok (messages a), a).

(** [json.loads(tc.function.arguments)] with [{}] on [JSONDecodeError];
    what else [json.loads] raises goes on. *)
Definition parse_arguments `{Externals} (tc : tool_call) : exn + pyval :=
  match json_loads (tc_arguments tc) with
  | Loaded args => inr args
  | JSONDecodeError => inr (PDict ∅)
  | LoadsRaises e => inl e
  end.

(** [(msg.content or "")] *)
Definition content_or_empty (r : response) : string :=
  default "" (rs_content r).

(** The outcome of one pass through the body of [while True]. *)
Inductive flow := Continue | Return.

(** ** agents/s06_context_compact.py *)

Module S06.
Section Code.
Context `{Externals}.

Definition THRESHOLD : N := 5000.
Definition KEEP_RECENT : nat := 3.
Definition TRANSCRIPT_DIR : path := WORKDIR ++ [".transcripts"].
Definition SYSTEM : string :=
  "你是工作目录 " +:+ path_str WORKDIR +:+ " 下的编程代理。使用工具完成任务。".

Definition estimate_tokens (messages : list message) : N :=
  (PyStr.len (str_messages messages) / 4)%N.

(** *** Tier 1 *)

(** The [(i, msg)] with [msg.get("role") == "tool"], in order. *)
Definition tool_result_indices (messages : list message) : list (nat * message) :=
  filter (λ p, role p.2 = "tool") (imap pair messages).

(** The inner loop over [msg.get("tool_calls") or []]: a call with a
    non-empty id enters the map, and a later call with the same id
    replaces the earlier one. *)
Definition add_calls (m : gmap string string) (tcs : list tool_call) : gmap string string :=
  foldl (λ m tc, if decide (tc_id tc ≠ "") then <[tc_id tc := tc_name tc]> m else m) m tcs.

(** [tool_name_map], filled from every assistant message of the list. *)
Definition tool_name_map (messages : list message) : gmap string string :=
  foldl (λ m msg,
           if decide (role msg = "assistant")
           then add_calls m (default [] (tool_calls msg))
           else m)
        ∅ messages.

Definition placeholder (tool_name : string) : string :=
  "[此前：已使用 " +:+ tool_name +:+ "]".

(** The body of [for idx, msg in to_clear]. *)
Definition clear_one (names : gmap string string)
    (messages : list message) (entry : nat * message) : list message :=
  let '(idx, msg) := entry in
  let c := default "" (content msg) in
  if (100 <? PyStr.len c)%N then
    let tid := default "" (tool_call_id msg) in
    let tool_name := default "unknown" (names !! tid) in
    <[idx := with_content msg (placeholder tool_name)]> messages
  else messages.

Definition micro_compact (messages : list message) : list message :=
  let tool_results := tool_result_indices messages in
  if bool_decide (length tool_results ≤ KEEP_RECENT)%nat then messages
  else
    let names := tool_name_map messages in
    let to_clear := take (length tool_results - KEEP_RECENT) tool_results in
    foldl (clear_one names) messages to_clear.

(** *** Tier 2 *)

Definition summary_prompt : string :=
  "请对以下对话做连续性总结，需包含："
  +:+ "1）已完成的事项；2）当前状态；3）关键决策。"
  +:+ "简洁但保留关键信息。" +:+ nl +:+ nl.

(** [json.dumps(messages, ...)]: the elements between brackets. *)
Definition json_dumps_list (messages : list message) : string :=
  "[" +:+ join ", " (json_dumps <$> messages) +:+ "]".

(** The lines written to the transcript. *)
Definition transcript_text (messages : list message) : string :=
  foldr (λ msg rest, json_dumps msg +:+ nl +:+ rest) "" messages.

Definition transcript_file (t : Z) : path :=
  TRANSCRIPT_DIR ++ ["transcript_" +:+ pretty t +:+ ".jsonl"].

Definition acknowledgment : string :=
  "已了解。我已从总结中获取上下文，继续执行。".

(** The request for the summary. *)
Definition summary_request (messages : list message) : request :=
  let conversation_text := PyStr.take 80000%N (json_dumps_list messages) in
  {| rq_messages := [user_message (summary_prompt +:+ conversation_text)];
     rq_tools := None;
     rq_max_tokens := 2000%N |}.

(** The two messages that stand for the conversation afterwards. *)
Definition compacted (transcript_path : path) (summary : string) : list message :=
  [ user_message ("[对话已压缩。笔录：" +:+ path_str transcript_path +:+ "]"
                  +:+ nl +:+ nl +:+ summary);
    assistant_message acknowledgment ].

Definition auto_compact (messages : list message) : M World (list message) :=
  _ ← mkdir_exist_ok TRANSCRIPT_DIR;
  t ← time_now;
  let transcript_path := transcript_file t in
  _ ← write_text transcript_path (transcript_text messages);
  _ ← print ("[笔录已保存: " +:+ path_str transcript_path +:+ "]");
  response ← chat_create (summary_request messages);
  let summary := PyStr.strip (content_or_empty response) in
  mret (compacted transcript_path summary).

(** *** The loop *)

Definition TOOL_HANDLERS (name : string) : option handler :=
  match base_handlers S06 name with
  | Some h => Some h
  | None =>
      if decide (name = "compact") then Some (λ _, mret "已请求手动压缩。")
      else None
  end.

Definition TOOLS : list string := BASE_TOOLS ++ ["compact"].

(** The [else] branch of the loop over the calls: parse, look up, call.
    The [try] is around the call alone. *)
Definition dispatch (tc : tool_call) : M World string :=
  args ← of_sum (parse_arguments tc);
  let handler := TOOL_HANDLERS (tc_name tc) in
  try_except
    (match handler with
     | Some handler => kw ← as_kwargs args; handler kw
     | None => mret ("未知工具: " +:+ tc_name tc)
     end)
    (λ e, mret ("错误：" +:+ str_exn e)).

(** [for tc in tool_calls: ...], returning [manual_compact]. *)
Fixpoint run_tool_calls (tool_calls : list tool_call) (manual_compact : bool) : M Agent bool :=
  match tool_calls with
  | [] => mret manual_compact
  | tc :: rest =>
      r ← (if decide (tc_name tc = "compact")
           then mret (true, "正在压缩...")
           else output ← lift (dispatch tc); mret (manual_compact, output));
      let '(manual_compact, output) := r in
      _ ← lift (print ("> " +:+ tc_name tc +:+ ": " +:+ PyStr.take 200%N output));
      _ ← append (tool_message (tc_id tc) (PyStr.take 50000%N output));
      run_tool_calls rest manual_compact
  end.

(** [messages[:] = auto_compact(messages)] *)
Definition compact_store : M Agent unit :=
  msgs ← get_messages;
  new ← lift (auto_compact msgs);
  set_messages new.

(** What precedes the request: tier 1, then the threshold test. *)
Definition pre_request : M Agent unit :=
  msgs ← get_messages;
  _ ← set_messages (micro_compact msgs);
  msgs ← get_messages;
  if (THRESHOLD <? estimate_tokens msgs)%N
  then _ ← lift (print "[自动压缩已触发]"); compact_store
  else mret tt.

(** The request of the loop: the system prompt, the store, the tools. *)
Definition model_request (msgs : list message) : request :=
  {| rq_messages := system_message SYSTEM :: msgs;
     rq_tools := Some TOOLS;
     rq_max_tokens := 8000%N |}.

(** The body of [while True] from the request on. *)
Definition turn : M Agent flow :=
  msgs ← get_messages;
  response ← lift (chat_create (model_request msgs));
  let text := PyStr.strip (content_or_empty response) in
  let tool_calls := rs_tool_calls response in
  match tool_calls with
  | _ :: _ =>
      _ ← append (assistant_calls_message (content_or_empty response) tool_calls);
      manual_compact ← run_tool_calls tool_calls false;
      _ ← (if manual_compact : bool
           then _ ← lift (print "[手动压缩]"); compact_store
           else mret tt);
      mret Continue
  | [] =>
      _ ← append (assistant_message text);
      _ ← lift (print text);
      mret Return
  end.

(** The body of [while True]. *)
Definition iteration : M Agent flow :=
  _ ← pre_request;
  turn.

(** [agent_loop(messages)], for at most [fuel] passes. *)
Fixpoint agent_loop (fuel : nat) : M Agent unit :=
  match fuel with
  | O => out_of_fuel
  | S fuel =>
      f ← iteration;
      match f with
      | Continue => agent_loop fuel
      | Return => mret tt
      end
  end.

End Code.

(** *** The spec's reading of tier 1 *)

(** The tool named by the nearest assistant message before position [idx]
    that records a call with id [tid]. *)
Definition originating_tool (messages : list message) (idx : nat) (tid : string)
    : option string :=
  let earlier := reverse (take idx messages) in
  let calls := mjoin ((λ msg, if decide (role msg = "assistant")
                              then reverse (default [] (tool_calls msg)) else [])
                      <$> earlier) in
  tc_name <$> head (filter (λ tc, tc_id tc = tid) calls).

(** Tier 1 as the spec words it: all but the last 3 tool messages, when
    longer than 100 characters, get a placeholder naming the tool found by
    looking backward through the prior assistant messages. *)
Definition spec_micro_compact (messages : list message) : list message :=
  let tools := length (filter (λ msg, role msg = "tool") messages) in
  if bool_decide (tools ≤ 3)%nat then messages
  else
    imap (λ i msg,
            let rank := length (filter (λ msg, role msg = "tool") (take i messages)) in
            if bool_decide (role msg = "tool") && bool_decide (rank + 3 < tools)%nat
               && (100 <? PyStr.len (default "" (content msg)))%N
            then with_content msg
                   (placeholder (default "unknown"
                      (originating_tool messages i (default "" (tool_call_id msg)))))
            else msg)
         messages.

(** *** What tier 1 does, message by message *)

(** The calls the assistant messages of the list record, in order. *)
Definition recorded_calls (messages : list message) : list tool_call :=
  mjoin ((λ msg, if decide (role msg = "assistant")
                 then default [] (tool_calls msg) else [])
         <$> messages).

(** The tool of the last recorded call whose id is [tid]; the empty id
    names none. *)
Definition recorded_tool (messages : list message) (tid : string) : option string :=
  if decide (tid = "") then None
  else tc_name <$> last (filter (λ tc, tc_id tc = tid) (recorded_calls messages)).

(** The number of tool messages in the list, and before position [i]. *)
Definition tool_total (messages : list message) : nat :=
  length (filter (λ msg, role msg = "tool") messages).
Definition tools_before (messages : list message) (i : nat) : nat :=
  tool_total (take i messages).

(** The message at position [i] is a tool message, at least 3 tool
    messages follow it, and its content is longer than 100 characters. *)
Definition cleared (messages : list message) (i : nat) (msg : message) : bool :=
  bool_decide (role msg = "tool")
  && bool_decide (tools_before messages i + 3 < tool_total messages)%nat
  && (100 <? PyStr.len (default "" (content msg)))%N.

(** What the loop over [to_clear] leaves at the position of [msg]. *)
Definition cleared_text (names : gmap string string) (msg : message) : message :=
  if (100 <? PyStr.len (default "" (content msg)))%N
  then with_content msg
         (placeholder (default "unknown" (names !! default "" (tool_call_id msg))))
  else msg.

(** The placeholder for a tool message. *)
Definition placeholder_for (messages : list message) (msg : message) : string :=
  placeholder (default "unknown"
    (recorded_tool messages (default "" (tool_call_id msg)))).

End S06.

(** ** agents/s03_todo_write.py *)

Module S03.
Section Code.
Context `{Externals}.

Definition SYSTEM : string :=
  "你是工作目录 " +:+ path_str WORKDIR +:+ " 下的编程助手。" +:+ nl
  +:+ "使用 todo 工具规划多步任务：开始前标为 in_progress，完成后标为 completed。" +:+ nl
  +:+ "优先用工具执行，少说多做。".

(** [item.get(key, default)] *)
Definition item_get (item : pyval) (key : string) (dflt : pyval) : M World pyval :=
  match item with
  | PDict d => mret (default dflt (d !! key))
  | _ => raise (AttributeError (error_text "get" item))
  end.

Definition statuses : list string := ["pending"; "in_progress"; "completed"].

(** The body of [for i, item in enumerate(items)], from position [i]. *)
Fixpoint validate (i : nat) (items : list pyval)
    (validated : list todo_item) (in_progress_count : nat)
    : M World (list todo_item * nat) :=
  match items with
  | [] => mret (validated, in_progress_count)
  | item :: rest =>
      x ← item_get item "text" (PStr "");
      let text := PyStr.strip (py_str x) in
      x ← item_get item "status" (PStr "pending");
      let status := PyStr.lower (py_str x) in
      x ← item_get item "id" (PStr (pretty (i + 1)%nat));
      let item_id := py_str x in
      if decide (text = "") then
        raise (ValueError ("项 " +:+ item_id +:+ "：必须填写内容"))
      else if bool_decide (status ∉ statuses) then
        raise (ValueError ("项 " +:+ item_id +:+ "：无效状态 '" +:+ status +:+ "'"))
      else
        let in_progress_count :=
          if decide (status = "in_progress") then S in_progress_count
          else in_progress_count in
        validate (S i) rest
          (validated ++ [ {| todo_id := item_id; todo_text := text; todo_status := status |} ])
          in_progress_count
  end.

Definition marker (status : string) : string :=
  if decide (status = "pending") then "[ ]"
  else if decide (status = "in_progress") then "[>]"
  else "[x]".

(** [TodoManager.render] on the stored items. *)
Definition render (items : list todo_item) : string :=
  match items with
  | [] => "暂无待办。"
  | _ =>
      let lines :=
        (λ item, marker (todo_status item) +:+ " #" +:+ todo_id item +:+ ": " +:+ todo_text item)
        <$> items in
      let done := length (filter (λ t, todo_status t = "completed") items) in
      join nl (lines ++ [nl +:+ "（已完成 " +:+ pretty done +:+ "/"
                         +:+ pretty (length items) +:+ " 项）"])
  end.

(** [TodoManager.update] on the global [TODO]. *)
Definition update (items : list pyval) : M World string :=
  if bool_decide (20 < length items)%nat then raise (ValueError "最多允许 20 个待办")
  else
    r ← validate 0 items [] 0;
    let '(validated, in_progress_count) := r in
    if bool_decide (1 < in_progress_count)%nat
    then raise (ValueError "同一时间只能有一个任务为进行中")
    else
      _ ← modify (set_todo_items validated);
      mret (render validated).

(** ["todo": lambda **kw: TODO.update(kw["items"])]; [len] and
    [enumerate] take a text, of which they see the characters, and a dict,
    of which they see the keys: texts, so that the first item fails on
    [item.get] whichever key comes first. *)
Definition handle_todo : handler := λ kw,
  items ← kw_item kw "items";
  match items with
  | PList l => update l
  | PStr s => update (PStr <$> PyStr.points s)
  | PDict d => update (PStr <$> (map_to_list d).*1)
  | _ => raise (TypeError (error_text "len" items))
  end.

Definition TOOL_HANDLERS (name : string) : option handler :=
  match base_handlers S03 name with
  | Some h => Some h
  | None => if decide (name = "todo") then Some handle_todo else None
  end.

Definition TOOLS : list string := BASE_TOOLS ++ ["todo"].

Definition reminder : string :=
  "<reminder>请更新你的待办列表。</reminder>" +:+ nl.

(** The test and the assignment at the head of the loop body. *)
Definition inject_reminder (rounds_since_todo : nat) : M Agent unit :=
  modify (λ a,
    match last (messages a) with
    | Some msg =>
        if bool_decide (3 ≤ rounds_since_todo)%nat && bool_decide (role msg = "user")
        then
          let c := default "" (content msg) in
          if negb (PyStr.startswith "<reminder>" (PyStr.strip c))
          then {| messages := removelast (messages a) ++ [with_content msg (reminder +:+ c)];
                  world := world a |}
          else a
        else a
    | None => a
    end).

(** The body of the loop over the calls: parse, look up, call.  The
    [try] is around the call alone. *)
Definition dispatch (tc : tool_call) : M World string :=
  args ← of_sum (parse_arguments tc);
  let handler := TOOL_HANDLERS (tc_name tc) in
  try_except
    (match handler with
     | Some handler => kw ← as_kwargs args; handler kw
     | None => mret ("未知工具：" +:+ tc_name tc)
     end)
    (λ e, mret ("错误：" +:+ str_exn e)).

(** [for tc in tool_calls: ...], returning [used_todo]. *)
Fixpoint run_tool_calls (tool_calls : list tool_call) (used_todo : bool) : M Agent bool :=
  match tool_calls with
  | [] => mret used_todo
  | tc :: rest =>
      output ← lift (dispatch tc);
      _ ← lift (print ("> " +:+ tc_name tc +:+ ": " +:+ PyStr.take 200%N output));
      _ ← append (tool_message (tc_id tc) (PyStr.take 50000%N output));
      run_tool_calls rest (if decide (tc_name tc = "todo") then true else used_todo)
  end.

(** The request of the loop: the system prompt, the store, the tools. *)
Definition model_request (msgs : list message) : request :=
  {| rq_messages := system_message SYSTEM :: msgs;
     rq_tools := Some TOOLS;
     rq_max_tokens := 8000%N |}.

(** The body of [while True] from the request on, from and to the value
    of [rounds_since_todo]. *)
Definition turn (rounds_since_todo : nat) : M Agent (flow * nat) :=
  msgs ← get_messages;
  response ← lift (chat_create (model_request msgs));
  let text := PyStr.strip (content_or_empty response) in
  let tool_calls := rs_tool_calls response in
  match tool_calls with
  | _ :: _ =>
      _ ← append (assistant_calls_message (content_or_empty response) tool_calls);
      used_todo ← run_tool_calls tool_calls false;
      mret (Continue, if used_todo : bool then 0%nat else S rounds_since_todo)
  | [] =>
      _ ← append (assistant_message text);
      _ ← lift (print text);
      mret (Return, rounds_since_todo)
  end.

(** The body of [while True]. *)
Definition iteration (rounds_since_todo : nat) : M Agent (flow * nat) :=
  _ ← inject_reminder rounds_since_todo;
  turn rounds_since_todo.

Fixpoint loop_from (fuel : nat) (rounds_since_todo : nat) : M Agent unit :=
  match fuel with
  | O => out_of_fuel
  | S fuel =>
      r ← iteration rounds_since_todo;
      match r with
      | (Continue, rounds_since_todo) => loop_from fuel rounds_since_todo
      | (Return, _) => mret tt
      end
  end.

(** [agent_loop(messages)]: the counter starts at 0 with every call. *)
Definition agent_loop (fuel : nat) : M Agent unit := loop_from fuel 0.

(** The lines that end the session. *)
Definition quits (query : string) : bool :=
  bool_decide (PyStr.lower (PyStr.strip query) ∈ ["q"; "exit"; "退出"; ""]).

(** The session of [__main__] on the lines typed; each call of the loop
    gets [fuel] passes. *)
Fixpoint session (fuel : nat) (queries : list string) : M Agent unit :=
  match queries with
  | [] => mret tt
  | query :: rest =>
      if quits query then mret tt
      else
        _ ← append (user_message query);
        _ ← agent_loop fuel;
        _ ← lift (print "");
        session fuel rest
  end.

End Code.
End S03.

(** ** agents/s04_subagent.py *)

Module S04.
Section Code.
Context `{Externals}.

Definition SYSTEM : string :=
  "你是工作目录 " +:+ path_str WORKDIR
  +:+ " 下的编程代理。使用 task 工具将探索或子任务委派给子代理。".
Definition SUBAGENT_SYSTEM : string :=
  "你是工作目录 " +:+ path_str WORKDIR
  +:+ " 下的编程子代理。完成给定任务后，用简短摘要汇报结果。".

Definition TOOL_HANDLERS : string → option handler := base_handlers S04.

Definition CHILD_TOOLS : list string := BASE_TOOLS.
Definition PARENT_TOOLS : list string := CHILD_TOOLS ++ ["task"].

Definition no_summary : string := "（无摘要）".

(** [handler( **args) if handler else ...] on the parsed arguments:
    nothing catches what the handler raises. *)
Definition call_handler (tc : tool_call) (args : pyval) : M World string :=
  match TOOL_HANDLERS (tc_name tc) with
  | Some handler => kw ← as_kwargs args; handler kw
  | None => mret ("未知工具: " +:+ tc_name tc)
  end.

(** Parse, look up, call. *)
Definition dispatch (tc : tool_call) : M World string :=
  args ← of_sum (parse_arguments tc);
  call_handler tc args.

(** The child's [for tc in tool_calls: ...]. *)
Fixpoint run_child_calls (tool_calls : list tool_call) : M Agent unit :=
  match tool_calls with
  | [] => mret tt
  | tc :: rest =>
      output ← lift (dispatch tc);
      _ ← append (tool_message (tc_id tc) (PyStr.take 50000%N output));
      run_child_calls rest
  end.

(** The child's request: its own system prompt, its store, the basic tools. *)
Definition child_request (msgs : list message) : request :=
  {| rq_messages := system_message SUBAGENT_SYSTEM :: msgs;
     rq_tools := Some CHILD_TOOLS;
     rq_max_tokens := 8000%N |}.

(** [for _ in range(n): ...] of [run_subagent], from and to [last_text]. *)
Fixpoint child_loop (n : nat) (last_text : string) : M Agent string :=
  match n with
  | O => mret last_text
  | S n =>
      msgs ← get_messages;
      response ← lift (chat_create (child_request msgs));
      let last_text := PyStr.strip (content_or_empty response) in
      let tool_calls := rs_tool_calls response in
      _ ← append (assistant_calls_message (content_or_empty response) tool_calls);
      match tool_calls with
      | [] => mret last_text
      | _ :: _ =>
          _ ← run_child_calls tool_calls;
          child_loop n last_text
      end
  end.

(** The child on its own store: what it returns or raises, and the store
    and world it leaves. *)
Definition child (prompt : string) (w : World) : result string * Agent :=
  (last_text ← child_loop 30 "";
   mret (if decide (last_text = "") then no_summary else last_text))
  {| messages := [user_message prompt]; world := w |}.

(** [run_subagent(prompt)]: the child's store is dropped. *)
Definition run_subagent (prompt : string) : M World string := λ w,
  let '(r, a) := child prompt w in (r, world a).

(** The branch for [name == "task"].  A prompt that is no text is shown
    as the empty text where it is false; the child is not started on it:
    the store of this embedding holds texts, and the endpoint's answer to
    another content is not part of it. *)
Definition run_task (args : pyval) : M World string :=
  match args with
  | PDict d =>
      let desc := py_str (default (PStr "子任务") (d !! "description")) in
      let given := default (PStr "") (d !! "prompt") in
      shown ← (if truthy given then
                 match given with
                 | PStr s => mret (PyStr.take 80%N s)
                 | PList l => mret (py_repr (PList (take 80 l)))
                 | _ => raise (TypeError (error_text "slice" given))
                 end
               else mret "");
      _ ← print ("> task（" +:+ desc +:+ "）: " +:+ shown);
      prompt ← as_str "content" given;
      run_subagent prompt
  | _ => raise (AttributeError (error_text "get" args))
  end.

(** The parent's [for tc in tool_calls: ...]. *)
Fixpoint run_tool_calls (tool_calls : list tool_call) : M Agent unit :=
  match tool_calls with
  | [] => mret tt
  | tc :: rest =>
      output ← lift (args ← of_sum (parse_arguments tc);
                     if decide (tc_name tc = "task")
                     then run_task args
                     else call_handler tc args);
      _ ← lift (print ("  " +:+ PyStr.take 200%N output));
      _ ← append (tool_message (tc_id tc) (PyStr.take 50000%N output));
      run_tool_calls rest
  end.

(** The request of the loop: the system prompt, the store, the tools. *)
Definition model_request (msgs : list message) : request :=
  {| rq_messages := system_message SYSTEM :: msgs;
     rq_tools := Some PARENT_TOOLS;
     rq_max_tokens := 8000%N |}.

(** The body of [while True]. *)
Definition iteration : M Agent flow :=
  msgs ← get_messages;
  response ← lift (chat_create (model_request msgs));
  let text := PyStr.strip (content_or_empty response) in
  let tool_calls := rs_tool_calls response in
  match tool_calls with
  | _ :: _ =>
      _ ← append (assistant_calls_message (content_or_empty response) tool_calls);
      _ ← run_tool_calls tool_calls;
      mret Continue
  | [] =>
      _ ← append (assistant_message text);
      _ ← lift (print text);
      mret Return
  end.

Fixpoint agent_loop (fuel : nat) : M Agent unit :=
  match fuel with
  | O => out_of_fuel
  | S fuel =>
      f ← iteration;
      match f with
      | Continue => agent_loop fuel
      | Return => mret tt
      end
  end.

End Code.
End S04.

(** ** A scripted world, to run the code on *)

Module Script.

(** The double quote. *)
Definition dq : string := String (ascii_of_nat 34) "".

(** A rendering of a message in the manner of [json.dumps] and [str]:
    the role and the content. *)
Definition show_message (msg : message) : string :=
  "{" +:+ role msg +:+ ": " +:+ default "" (content msg) +:+ "}".

(** [s] consists of opening brackets. *)
Fixpoint all_open (s : string) : bool :=
  match s with
  | EmptyString => true
  | String c r => bool_decide (c = "["%char) && all_open r
  end.

(** The scripted [json.loads]: the payloads of [table] are read as the
    table says, a payload of 1000 or more opening brackets exceeds the
    recursion limit, and any other text is not JSON. *)
Definition loads (table : list (string * pyval)) (s : string) : loaded :=
  match head (filter (λ e, e.1 = s) table) with
  | Some e => Loaded e.2
  | None =>
      if all_open s && bool_decide (1000 ≤ String.length s)%nat
      then LoadsRaises (RecursionError
             "maximum recursion depth exceeded while decoding a JSON array from a unicode string")
      else JSONDecodeError
  end.

(** The texts of [OSError], as [str] shows them. *)
Definition os_text (e : errno) (p : path) : string :=
  match e with
  | ENOENT => "[Errno 2] No such file or directory: '"
  | EEXIST => "[Errno 17] File exists: '"
  | ENOTDIR => "[Errno 20] Not a directory: '"
  | EISDIR => "[Errno 21] Is a directory: '"
  end +:+ path_str p +:+ "'".

(** An endpoint that answers its n-th request with the n-th reply of
    [script] (and with plain text once the script is over), the scripted
    JSON reader, a clock that starts at [t0], a shell that echoes, files
    that hold UTF-8 and texts that UTF-8 holds, a terminal that shows
    every line, and no symbolic links below [/work]. *)
Definition externals (script : list response) (table : list (string * pyval)) (t0 : Z)
    : Externals :=
  {| WORKDIR := ["work"];
     resolve := λ parts, inr (lexical_resolve parts);
     json_loads := loads table;
     json_dumps := show_message;
     str_messages := λ msgs, "[" +:+ join ", " (show_message <$> msgs) +:+ "]";
     py_repr := λ _, "[...]";
     chat := λ log, default (Response (Some "done") [])
                      (script !! (length log - 1)%nat);
     time_time := λ n, (t0 + Z.of_nat n)%Z;
     shell := λ command d, (Completed ("ran " +:+ command), d);
     shell_seq := λ _ d, (Completed "ran a sequence", d);
     decode := λ bytes, bytes;
     encode := λ text, text;
     encode_locale := λ text, inr text;
     terminal := λ _, None;
     strerror := os_text;
     error_text := λ site _, "bad operand for " +:+ site |}.

(** A tree that holds the working directory [/work] and nothing else,
    and an operating system that refuses nothing. *)
Definition no_refusal : access → path → option exn := λ _ _, None.

Definition empty_world : World :=
  {| files := ∅; dirs := {[ ["work"] ]}; refuses := no_refusal;
     clock_reads := 0; requests := []; stdout := []; todo_items := [] |}.

Definition start (msgs : list message) : Agent :=
  {| messages := msgs; world := empty_world |}.

End Script.

(** ** Inputs the code is run on below *)

Module Cases.

Definition long_text : string :=
  "0123456789012345678901234567890123456789012345678901234567890123456789"
  +:+ "0123456789012345678901234567890123456789".

(** Two turns whose calls carry the same id, as an endpoint that numbers
    the calls of each reply from 0 hands them out, followed by three more
    tool results. *)
Definition reused_ids : list message :=
  [ user_message "list the files, then read a.txt";
    assistant_calls_message "" [ToolCall "call_0" "bash" "{}"];
    tool_message "call_0" long_text;
    assistant_calls_message "" [ToolCall "call_0" "read_file" "{}"];
    tool_message "call_0" long_text;
    assistant_calls_message ""
      [ToolCall "call_1" "bash" "{}"; ToolCall "call_2" "bash" "{}"];
    tool_message "call_1" "ok";
    tool_message "call_2" "ok" ].

(** A world in which the transcript of second 100 exists already. *)
Definition world_with_transcript : World :=
  {| files := {[ ["work"; ".transcripts"; "transcript_100.jsonl"] := "an earlier transcript" ]};
     dirs := {[ ["work"]; ["work"; ".transcripts"] ]};
     refuses := Script.no_refusal;
     clock_reads := 0; requests := []; stdout := []; todo_items := [] |}.

End Cases.

(** ** Observations of the state *)

(** The tool messages for the calls [tcs] whose results are [outputs]:
    one per call, in the order of the calls, each with the id of its call
    and the first 50000 characters of its result. *)
Definition tool_results (tcs : list tool_call) (outputs : list string) : list message :=
  zip_with (λ tc output, tool_message (tc_id tc) (PyStr.take 50000%N output)) tcs outputs.

(** Some call of the list is to the tool [name]. *)
Definition calls_tool (name : string) (tcs : list tool_call) : bool :=
  existsb (λ tc, bool_decide (tc_name tc = name)) tcs.

(** A computation is [tame] for an observation of the state when it ends,
    with a value or with an exception, and leaves the observation as it
    finds it. *)
Definition tame {S A B} (obs : S → B) (m : M S A) : Prop :=
  ∀ s, obs (m s).2 = obs s ∧ (m s).1 ≠ OutOfFuel.

(** The tools leave the log of requests, the clock and the progress list
    alone: they act on the files and on the terminal. *)
Definition outside_files (w : World) : list request * nat * list todo_item :=
  (requests w, clock_reads w, todo_items w).

(** The compaction wrote a new file: some path that held no file holds
    one afterwards, and every other path holds what it held. *)
Definition wrote_new_file (before after : gmap path string) : Prop :=
  ∃ p, before !! p = None ∧ is_Some (after !! p) ∧ ∀ q, q ≠ p → after !! q = before !! q.

(** What a turn appends to the store for the reply [r]: the final text, or
    the message recording the calls followed by one result per call. *)
Definition turn_appends (strip : string → string)
    (before after : list message) (r : response) : Prop :=
  match rs_tool_calls r with
  | [] => after = before ++ [assistant_message (strip (content_or_empty r))]
  | tcs =>
      ∃ outputs, length outputs = length tcs ∧
        after = before ++ assistant_calls_message (content_or_empty r) tcs
                          :: tool_results tcs outputs
  end.

(** ** The progress list, item by item *)

Module Todo.
Section Spec.
Context `{Externals}.

(** The fields of a submitted item as [update] reads them. *)
Definition text_of (item : gmap string pyval) : string :=
  PyStr.strip (py_str (default (PStr "") (item !! "text"))).
Definition status_of (item : gmap string pyval) : string :=
  PyStr.lower (py_str (default (PStr "pending") (item !! "status"))).
Definition id_of (i : nat) (item : gmap string pyval) : string :=
  py_str (default (PStr (pretty (i + 1)%nat)) (item !! "id")).

(** The items as they are stored: the id (by default the position, from
    1), the text without the surrounding white space, the status in
    lower case. *)
Definition normalise_from (i : nat) (items : list (gmap string pyval)) : list todo_item :=
  imap (λ j item, {| todo_id := id_of (i + j) item;
                     todo_text := text_of item;
                     todo_status := status_of item |}) items.
Definition normalise (items : list (gmap string pyval)) : list todo_item :=
  normalise_from 0 items.

(** The submissions [update] refuses. *)
Definition rejected (items : list (gmap string pyval)) : Prop :=
  (20 < length items)%nat
  ∨ Exists (λ item, text_of item = "") items
  ∨ Exists (λ item, status_of item ∉ S03.statuses) items
  ∨ (1 < length (filter (λ item, status_of item = "in_progress") items))%nat.

#[global] Instance rejected_dec items : Decision (rejected items).
Proof. unfold rejected. apply _. Defined.

(** The submissions the claim says are refused: the conditions on the
    fields as they are submitted. *)
Definition raw_text (item : gmap string pyval) : string :=
  py_str (default (PStr "") (item !! "text")).
Definition raw_status (item : gmap string pyval) : string :=
  py_str (default (PStr "pending") (item !! "status")).
Definition spec_rejected (items : list (gmap string pyval)) : Prop :=
  (20 < length items)%nat
  ∨ Exists (λ item, raw_text item = "") items
  ∨ Exists (λ item, raw_status item ∉ S03.statuses) items
  ∨ (1 < length (filter (λ item, raw_status item = "in_progress") items))%nat.

#[global] Instance spec_rejected_dec items : Decision (spec_rejected items).
Proof. unfold spec_rejected. apply _. Defined.

(** The arguments of a call of the [todo] tool with these items. *)
Definition todo_arguments (items : list (gmap string pyval)) : pyval :=
  PDict {[ "items" := PList (PDict <$> items) ]}.

End Spec.
End Todo.

(** Submissions for the progress list. *)
Module TodoCases.

Definition item (id text status : string) : gmap string pyval :=
  {[ "id" := PStr id; "text" := PStr text; "status" := PStr status ]}.

(** An item whose text is white space, and an item whose status is
    written in capitals. *)
Definition blank_text : list (gmap string pyval) := [item "1" "   " "pending"].
Definition capitals : list (gmap string pyval) := [item "1" "build" "IN_PROGRESS"].

(** Two items in progress, after a list with one item was stored. *)
Definition two_in_progress : list (gmap string pyval) :=
  [item "1" "build" "in_progress"; item "2" "test" "in_progress"].
Definition stored : World :=
  set_todo_items
    [ {| todo_id := "0"; todo_text := "plan"; todo_status := "completed" |} ]
    Script.empty_world.

(** The payload of a call that submits [two_in_progress]. *)
Definition js (s : string) : string := Script.dq +:+ s +:+ Script.dq.
Definition two_in_progress_payload : string :=
  "{" +:+ js "items" +:+ ": [{" +:+ js "id" +:+ ": " +:+ js "1" +:+ ", "
  +:+ js "text" +:+ ": " +:+ js "build" +:+ ", "
  +:+ js "status" +:+ ": " +:+ js "in_progress" +:+ "}, {"
  +:+ js "id" +:+ ": " +:+ js "2" +:+ ", "
  +:+ js "text" +:+ ": " +:+ js "test" +:+ ", "
  +:+ js "status" +:+ ": " +:+ js "in_progress" +:+ "}]}".

End TodoCases.

(** ** The states of the loop of s03 *)

(** The values of [rounds_since_todo] and of the store and world at the
    head of the loop body, in a call of [agent_loop] on [a0]. *)
Inductive reached `{Externals} (a0 : Agent) : nat → Agent → Prop :=
  | reached_start : reached a0 0 a0
  | reached_next rounds a rounds' a' :
      reached a0 rounds a →
      S03.iteration rounds a = (Ok (Continue, rounds'), a') →
      reached a0 rounds' a'.

(** Some message of some request carries the reminder. *)
Definition reminded (log : list request) : bool :=
  existsb (λ rq, existsb (λ msg, PyStr.contains "<reminder>" (default "" (content msg)))
                   (rq_messages rq)) log.

(** A session in which the model calls [bash] in three turns running and
    then answers, and the user sends a second line. *)
Module Stale.

Definition ls_payload : string :=
  "{" +:+ TodoCases.js "command" +:+ ": " +:+ TodoCases.js "ls" +:+ "}".

Definition bash_turn (id : string) : response :=
  {| rs_content := None; rs_tool_calls := [ToolCall id "bash" ls_payload] |}.

Definition script : list response :=
  [ bash_turn "call_1"; bash_turn "call_2"; bash_turn "call_3";
    {| rs_content := Some "three files"; rs_tool_calls := [] |};
    {| rs_content := Some "nothing more"; rs_tool_calls := [] |} ].

Definition externals : Externals :=
  Script.externals script [(ls_payload, PDict {[ "command" := PStr "ls" ]})] 0.

Definition queries : list string := ["list the files"; "anything else?"].

End Stale.

(** The counter and the state after the first [n] passes of the loop of
    s03 that go on. *)
Fixpoint turns `{Externals} (n : nat) (rounds : nat) (a : Agent) : nat * Agent :=
  match n with
  | O => (rounds, a)
  | S n =>
      match S03.iteration rounds a with
      | (Ok (Continue, rounds'), a') => turns n rounds' a'
      | _ => (rounds, a)
      end
  end.

(** ** Inputs for the subagent and for a failing handler *)

Module Sub.

(** A reply whose one call has a payload that is not JSON. *)
Definition malformed : list response :=
  [ {| rs_content := None; rs_tool_calls := [ToolCall "call_1" "bash" "{"] |} ].

(** A child that reports while it works and ends on an empty reply. *)
Definition quiet_end : list response :=
  [ {| rs_content := Some "Looking at the files.";
       rs_tool_calls := [ToolCall "call_1" "bash" Stale.ls_payload] |};
    {| rs_content := Some ""; rs_tool_calls := [] |} ].

Definition externals (script : list response) : Externals :=
  Script.externals script [(Stale.ls_payload, PDict {[ "command" := PStr "ls" ]})] 0.

(** The texts of the replies, as the loop takes them. *)
Definition texts (script : list response) : list string :=
  (λ r, PyStr.strip (content_or_empty r)) <$> script.

(** The summary as the spec words it: the last observed assistant text,
    and the placeholder only if no text was ever produced. *)
Definition spec_summary (observed : list string) : string :=
  if forallb (λ t, bool_decide (t = "")) observed then S04.no_summary
  else default "" (last observed).

(** The same, taking the last text observed to be the last that is not
    empty. *)
Definition spec_summary_nonempty (observed : list string) : string :=
  default S04.no_summary (last (filter (λ t, t ≠ "") observed)).

End Sub.

(** A request of the child: its system prompt, a store, the basic tools. *)
Definition child_shaped `{Externals} (rq : request) : Prop :=
  ∃ msgs, rq = S04.child_request msgs.

(** ** Inputs for the tools and for the threshold *)

Module Files.

(** [s] repeated [n] times. *)
Fixpoint rep (n : nat) (s : string) : string :=
  match n with
  | O => ""
  | S n => s +:+ rep n s
  end.

(** A file of ten lines below [/work]. *)
Definition ten_lines : string :=
  join nl ["1"; "2"; "3"; "4"; "5"; "6"; "7"; "8"; "9"; "10"] +:+ nl.

Definition with_a_txt : World :=
  set_files {[ ["work"; "a.txt"] := ten_lines ]} Script.empty_world.

(** A store whose first tool result is about 24000 characters long and is
    followed by three short ones. *)
Definition bulky : list message :=
  [ user_message "go";
    assistant_calls_message "" [ToolCall "call_1" "bash" "{}"];
    tool_message "call_1" (rep 2400 "0123456789");
    assistant_calls_message ""
      [ToolCall "call_2" "bash" "{}"; ToolCall "call_3" "bash" "{}";
       ToolCall "call_4" "bash" "{}"];
    tool_message "call_2" "ok";
    tool_message "call_3" "ok";
    tool_message "call_4" "ok" ].

End Files.

(** ** Shapes used by the further properties *)

(** The stored progress list is well formed: at most 20 items, each with a
    text and one of the three statuses, at most one of them in progress. *)
Definition todo_valid (items : list todo_item) : Prop :=
  (length items ≤ 20)%nat ∧
  Forall (λ t, todo_text t ≠ "" ∧ todo_status t ∈ S03.statuses) items ∧
  (length (filter (λ t, todo_status t = "in_progress") items) ≤ 1)%nat.

(** The arguments each basic tool reads with [kw[...]]. *)
Definition required (name : string) : list string :=
  if decide (name = "bash") then ["command"]
  else if decide (name = "read_file") then ["path"]
  else if decide (name = "write_file") then ["path"; "content"]
  else if decide (name = "edit_file") then ["path"; "old_text"; "new_text"]
  else [].

(** The arguments are as the tool schema declares them: the required ones
    are there and are strings, the limit, if given, is an integer. *)
Definition schema_typed (name : string) (kw : gmap string pyval) : Prop :=
  Forall (λ key, ∃ s, kw !! key = Some (PStr s)) (required name) ∧
  (kw !! "limit" = None ∨ ∃ z, kw !! "limit" = Some (PInt z)).

(** ** What a pass of a loop depends on *)

(** The payload of the call can be read: [json.loads] returns, or raises
    the [JSONDecodeError] that stands for no arguments. *)
Definition parsed `{Externals} (tc : tool_call) : Prop :=
  ∃ args, parse_arguments tc = inr args.

(** The operating system does not refuse the access, and the terminal
    shows the line. *)
Definition allowed (w : World) (acc : access) (p : path) : bool :=
  if refuses w acc p is None then true else false.
Definition shown `{Externals} (line : string) : bool :=
  if terminal line is None then true else false.

(** The compaction can store its transcript: the transcript directory is
    there or can be made, the file of the current second can be opened
    for writing, and the terminal shows the notice. *)
Definition can_store `{Externals} (w : World) : bool :=
  let d := S06.TRANSCRIPT_DIR in
  let p := S06.transcript_file (time_time (clock_reads w)) in
  (is_dir w d || (negb (is_file w d) && is_dir w (removelast d) && allowed w Making d))
  && allowed w Writing p && negb (is_dir w p)
  && shown ("[笔录已保存: " +:+ path_str p +:+ "]").

(** The world after a compaction of [msgs] that went through. *)
Definition stored_world `{Externals} (msgs : list message) (w : World) : World :=
  let d := S06.TRANSCRIPT_DIR in
  let p := S06.transcript_file (time_time (clock_reads w)) in
  {| files := <[p := encode (S06.transcript_text msgs)]> (files w);
     dirs := if is_dir w d then dirs w else {[ d ]} ∪ dirs w;
     refuses := refuses w;
     clock_reads := S (clock_reads w);
     requests := requests w ++ [S06.summary_request msgs];
     stdout := stdout w ++ ["[笔录已保存: " +:+ path_str p +:+ "]"];
     todo_items := todo_items w |}.

(** The bytes [run_edit] stores for a text: s02 leaves the encoding to the
    locale, which may refuse the text. *)
Definition edited_bytes `{Externals} (v : variant) (text : string) : exn + string :=
  match v with
  | S02 => encode_locale text
  | _ => inr (encode text)
  end.

(** What can end a pass of the loop of s06 with an exception: a payload
    that [json.loads] does not read, a line the terminal cannot show, a
    compaction that fails. *)
Definition ends_pass06 `{Externals} (e : exn) : Prop :=
  (∃ tc, parse_arguments tc = inl e)
  ∨ (∃ line, terminal line = Some e)
  ∨ (∃ a0 a1, S06.compact_store a0 = (Raise e, a1)).

(** * Verification *)

(** ** Tier 1: micro-compaction *)

Module Tier1.
Import S06.

Lemma add_calls_lookup (tcs : list tool_call) (m : gmap string string) (tid : string) :
  add_calls m tcs !! tid =
    match last (filter (λ tc, tc_id tc = tid) tcs) with
    | Some tc => if decide (tid = "") then m !! tid else Some (tc_name tc)
    | None => m !! tid
    end.
Proof.
  induction tcs as [|tc tcs IH] using rev_ind; [done|].
  unfold add_calls in *. rewrite foldl_app, filter_app. simpl.
  rewrite filter_cons, filter_nil.
  destruct (decide (tc_id tc = tid)) as [<-|Hne].
  - rewrite last_snoc. destruct (decide (tc_id tc ≠ "")) as [Hid|Hid].
    + rewrite lookup_insert_eq. by case_decide.
    + apply dec_stable in Hid. rewrite IH. case_decide; [|done].
      by destruct (last _).
  - rewrite app_nil_r. destruct (decide (tc_id tc ≠ "")); [|done].
    by rewrite lookup_insert_ne.
Qed.

Lemma tool_name_map_calls (messages : list message) :
  tool_name_map messages = add_calls ∅ (recorded_calls messages).
Proof.
  unfold tool_name_map, recorded_calls. generalize (∅ : gmap string string).
  induction messages as [|msg messages IH]; intros m; [done|].
  cbn [foldl fmap list_fmap mjoin list_join]. rewrite IH. unfold add_calls. rewrite foldl_app.
  destruct (decide (role msg = "assistant")); done.
Qed.

Lemma tool_name_map_lookup (messages : list message) (tid : string) :
  tool_name_map messages !! tid = recorded_tool messages tid.
Proof.
  rewrite tool_name_map_calls, add_calls_lookup. unfold recorded_tool.
  rewrite lookup_empty. destruct (decide (tid = "")); destruct (last _); done.
Qed.

Lemma indices_elem (l : list message) (i : nat) (msg : message) :
  (i, msg) ∈ tool_result_indices l ↔ l !! i = Some msg ∧ role msg = "tool".
Proof.
  unfold tool_result_indices. rewrite list_elem_of_filter, elem_of_lookup_imap.
  simpl. split.
  - intros [? (j & y & [= -> ->] & ?)]. done.
  - intros [? ?]. eauto.
Qed.

Lemma indices_fst_NoDup (l : list message) : NoDup (tool_result_indices l).*1.
Proof.
  unfold tool_result_indices.
  eapply sublist_NoDup; [|apply fmap_sublist, sublist_filter].
  rewrite fmap_imap. rewrite (imap_ext _ (λ j _, id j)) by done.
  rewrite (imap_seq_0 l id), list_fmap_id. apply NoDup_seq.
Qed.

Lemma length_filter_imap (f : nat → nat) (l : list message) :
  length (filter (λ p : nat * message, role p.2 = "tool") (imap (λ i x, (f i, x)) l))
  = tool_total l.
Proof.
  unfold tool_total. revert f. induction l as [|x l IH]; intros f; [done|].
  rewrite imap_cons, !filter_cons. simpl.
  specialize (IH (f ∘ S)).
  destruct (decide (role x = "tool")); simpl; by rewrite <-IH.
Qed.

Lemma indices_length (l : list message) :
  length (tool_result_indices l) = tool_total l.
Proof. apply (length_filter_imap id). Qed.

Lemma indices_position (l : list message) (i : nat) (msg : message) :
  l !! i = Some msg → role msg = "tool" →
  tool_result_indices l !! tools_before l i = Some (i, msg).
Proof.
  intros Hi Hrole. unfold tool_result_indices, tools_before.
  rewrite <-(length_filter_imap id (take i l)).
  assert (length (take i l) = i) as Hlen.
  { rewrite length_take. apply lookup_lt_Some in Hi. lia. }
  remember (take i l) as before eqn:Hbefore.
  rewrite <-(take_drop_middle l i msg Hi), <-Hbefore.
  rewrite imap_app, filter_app, imap_cons, filter_cons. simpl.
  rewrite decide_True by done. rewrite Hlen, Nat.add_0_r.
  apply list_lookup_middle. done.
Qed.

Lemma indices_take_elem (l : list message) (k i : nat) (msg : message) :
  (i, msg) ∈ take k (tool_result_indices l) ↔
  l !! i = Some msg ∧ role msg = "tool" ∧ tools_before l i < k.
Proof.
  rewrite elem_of_take. split.
  - intros (j & Hj & Hlt).
    assert ((i, msg) ∈ tool_result_indices l) as Hin
      by (eapply list_elem_of_lookup_2; done).
    apply indices_elem in Hin as [Hi Hrole]. split_and!; [done..|].
    pose proof (indices_position l i msg Hi Hrole) as Hpos.
    assert (j = tools_before l i) as <-; [|done].
    eapply NoDup_lookup; [|done..].
    eapply NoDup_fmap_1, indices_fst_NoDup.
  - intros (Hi & Hrole & Hlt). eauto using indices_position.
Qed.

Lemma clear_one_length names l e : length (clear_one names l e) = length l.
Proof.
  destruct e as [idx msg]. unfold clear_one.
  destruct (_ <? _)%N; [apply length_insert|done].
Qed.

Lemma clear_one_other names l idx msg i :
  i ≠ idx → clear_one names l (idx, msg) !! i = l !! i.
Proof.
  intros. unfold clear_one. destruct (_ <? _)%N; [|done].
  by apply list_lookup_insert_ne.
Qed.

Lemma clear_one_at names l i msg :
  l !! i = Some msg → clear_one names l (i, msg) !! i = Some (cleared_text names msg).
Proof.
  intros Hi. unfold clear_one, cleared_text. destruct (_ <? _)%N; [|done].
  apply list_lookup_insert_eq. by eapply lookup_lt_Some.
Qed.

Lemma foldl_clear_other names entries l i :
  i ∉ entries.*1 → foldl (clear_one names) l entries !! i = l !! i.
Proof.
  revert l. induction entries as [|[idx msg] entries IH]; intros l Hi; [done|].
  simpl in *. apply not_elem_of_cons in Hi as [? ?].
  rewrite IH by done. by apply clear_one_other.
Qed.

Lemma foldl_clear_at names entries l i msg :
  NoDup entries.*1 → (i, msg) ∈ entries → l !! i = Some msg →
  foldl (clear_one names) l entries !! i = Some (cleared_text names msg).
Proof.
  revert l. induction entries as [|[idx m] entries IH]; intros l Hdup Hin Hi.
  { by apply elem_of_nil in Hin. }
  simpl in *. apply NoDup_cons in Hdup as [Hidx Hdup].
  apply elem_of_cons in Hin as [[= <- <-]|Hin].
  - rewrite foldl_clear_other by done. by apply clear_one_at.
  - assert (i ≠ idx).
    { intros ->. apply Hidx. by apply (list_elem_of_fmap_2 fst) in Hin. }
    apply IH; [done..|]. rewrite <-Hi. by apply clear_one_other.
Qed.

Lemma foldl_clear_length names entries l :
  length (foldl (clear_one names) l entries) = length l.
Proof.
  revert l. induction entries as [|e entries IH]; intros l; [done|].
  simpl. by rewrite IH, clear_one_length.
Qed.

Lemma micro_compact_lookup (messages : list message) (i : nat) :
  micro_compact messages !! i =
    (λ msg, if cleared messages i msg
            then with_content msg (placeholder_for messages msg) else msg)
    <$> messages !! i.
Proof.
  unfold micro_compact. rewrite indices_length. unfold KEEP_RECENT.
  case_bool_decide as Hfew.
  { destruct (messages !! i) as [msg|] eqn:Hi; [|done]. simpl.
    unfold cleared. rewrite (bool_decide_eq_false_2 (_ < _)) by lia.
    by rewrite andb_false_r. }
  set (to_clear := take _ _).
  destruct (messages !! i) as [msg|] eqn:Hi; simpl.
  - destruct (decide ((i, msg) ∈ to_clear)) as [Hin|Hout].
    + rewrite (foldl_clear_at _ _ _ _ msg); [|  |done..].
      * apply indices_take_elem in Hin as (_ & Hrole & Hlt).
        f_equal. unfold cleared_text, cleared, placeholder_for.
        rewrite tool_name_map_lookup.
        rewrite !bool_decide_eq_true_2 by (done || lia). done.
      * eapply sublist_NoDup; [apply indices_fst_NoDup|].
        apply fmap_sublist, sublist_take.
    + rewrite foldl_clear_other, Hi.
      * f_equal. unfold cleared.
        destruct (decide (role msg = "tool")) as [Hrole|Hrole].
        -- rewrite (bool_decide_eq_false_2 (_ < _)); [by rewrite andb_false_r|].
           intros Hlt. apply Hout, indices_take_elem. split_and!; [done..|lia].
        -- by rewrite (bool_decide_eq_false_2 (role msg = "tool")).
      * intros ([j m] & -> & Hin)%list_elem_of_fmap. simpl in *.
        pose proof Hin as (Hj & _)%indices_take_elem. congruence.
  - apply lookup_ge_None. rewrite foldl_clear_length. by apply lookup_ge_None.
Qed.

Lemma micro_compact_fmap {B} (f : message → B) (messages : list message) :
  (∀ msg c, f (with_content msg c) = f msg) →
  f <$> micro_compact messages = f <$> messages.
Proof.
  intros Hf. apply list_eq; intros i.
  rewrite !list_lookup_fmap, micro_compact_lookup.
  destruct (messages !! i) as [msg|]; [simpl|done].
  destruct (cleared _ _ _); by rewrite ?Hf.
Qed.

Lemma tool_total_roles (messages : list message) :
  tool_total messages = length (filter (λ r, r = "tool") (role <$> messages)).
Proof.
  unfold tool_total. induction messages as [|msg messages IH]; [done|].
  rewrite fmap_cons, !filter_cons. destruct (decide (role msg = "tool")); simpl; by rewrite IH.
Qed.

Lemma micro_compact_tool_total (messages : list message) :
  tool_total (micro_compact messages) = tool_total messages.
Proof. by rewrite !tool_total_roles, micro_compact_fmap. Qed.

Lemma micro_compact_tools_before (messages : list message) (i : nat) :
  tools_before (micro_compact messages) i = tools_before messages i.
Proof.
  unfold tools_before. by rewrite !tool_total_roles, !fmap_take, micro_compact_fmap.
Qed.

Lemma micro_compact_recorded_tool (messages : list message) (tid : string) :
  recorded_tool (micro_compact messages) tid = recorded_tool messages tid.
Proof. unfold recorded_tool, recorded_calls. by rewrite micro_compact_fmap. Qed.

(** C2, as amended. Tier 1 leaves a list with at most 3 tool messages as it
    is; otherwise it replaces the content, and nothing but the content, of
    exactly the tool messages that are followed by at least 3 tool messages
    and whose content is longer than 100 characters, by the placeholder
    naming the tool of the last call with the message's id among the calls
    of all assistant messages of the list ("unknown" when there is none). *)
Theorem micro_compact_spec (messages : list message) :
  micro_compact messages =
    if bool_decide (tool_total messages ≤ 3)%nat then messages
    else imap (λ i msg, if cleared messages i msg
                        then with_content msg (placeholder_for messages msg)
                        else msg) messages.
Proof.
  apply list_eq; intros i. rewrite micro_compact_lookup.
  case_bool_decide as Hfew.
  - destruct (messages !! i) as [msg|]; [simpl|done].
    unfold cleared. rewrite (bool_decide_eq_false_2 (_ < _)%nat) by lia.
    by rewrite andb_false_r.
  - by rewrite list_lookup_imap.
Qed.

(** C5. Running tier 1 on its own result changes nothing. *)
Theorem micro_compact_idempotent (messages : list message) :
  micro_compact (micro_compact messages) = micro_compact messages.
Proof.
  apply list_eq; intros i. rewrite (micro_compact_lookup (micro_compact _)).
  rewrite micro_compact_lookup.
  destruct (messages !! i) as [msg|]; [simpl|done]. f_equal.
  unfold cleared, placeholder_for.
  rewrite micro_compact_tool_total, micro_compact_tools_before.
  set (is_tool := bool_decide (role msg = "tool")).
  set (old := bool_decide (_ < _)%nat).
  destruct (is_tool && old && (100 <? PyStr.len (default "" (content msg)))%N) eqn:Hc;
    cbn [with_content role content tool_call_id]; fold is_tool.
  - rewrite micro_compact_recorded_tool.
    apply andb_prop in Hc as [Hc _]. rewrite Hc.
    by destruct (true && _).
  - by rewrite Hc.
Qed.

(** *** Where the spec's reading and the code agree *)

Lemma recorded_calls_app (l1 l2 : list message) :
  recorded_calls (l1 ++ l2) = recorded_calls l1 ++ recorded_calls l2.
Proof. unfold recorded_calls. by rewrite fmap_app, join_app. Qed.

Lemma recorded_calls_reverse (l : list message) :
  mjoin ((λ msg, if decide (role msg = "assistant")
                 then reverse (default [] (tool_calls msg)) else [])
         <$> reverse l)
  = reverse (recorded_calls l).
Proof.
  induction l as [|msg l IH]; [done|].
  rewrite reverse_cons, fmap_app, join_app, IH.
  change (msg :: l) with ([msg] ++ l).
  rewrite recorded_calls_app, reverse_app. f_equal.
  unfold recorded_calls. simpl. rewrite !app_nil_r.
  by destruct (decide (role msg = "assistant")).
Qed.

(** Looking backward from position [i] finds the last matching call
    recorded before [i]. *)
Lemma originating_tool_last (l : list message) (i : nat) (tid : string) :
  originating_tool l i tid
  = tc_name <$> last (filter (λ tc, tc_id tc = tid) (recorded_calls (take i l))).
Proof.
  unfold originating_tool.
  by rewrite recorded_calls_reverse, filter_reverse, head_reverse.
Qed.

(** When no call id is recorded twice and every tool message answers a
    call, with an id that is not empty, recorded before it, the tool named
    is the originating one: the code does what the spec says. *)
Lemma micro_compact_agrees (l : list message) :
  NoDup (tc_id <$> recorded_calls l) →
  (∀ i msg, l !! i = Some msg → role msg = "tool" →
     ∃ tc, tc ∈ recorded_calls (take i l) ∧
           tool_call_id msg = Some (tc_id tc) ∧ tc_id tc ≠ "") →
  micro_compact l = spec_micro_compact l.
Proof.
  intros Hdup Hanswers. apply list_eq; intros i. rewrite micro_compact_lookup.
  unfold spec_micro_compact. fold (tool_total l). case_bool_decide as Hfew.
  { destruct (l !! i) as [msg|]; [simpl|done].
    unfold cleared. rewrite (bool_decide_eq_false_2 (_ < _)%nat) by lia.
    by rewrite andb_false_r. }
  rewrite list_lookup_imap.
  destruct (l !! i) as [msg|] eqn:Hi; [simpl|done]. f_equal.
  unfold cleared, tools_before, tool_total.
  destruct (bool_decide (role msg = "tool")) eqn:Hrole; [|done].
  apply bool_decide_eq_true_1 in Hrole.
  destruct (_ && _); [|done]. f_equal. unfold placeholder_for. do 2 f_equal.
  destruct (Hanswers i msg Hi Hrole) as (tc & Hin & -> & Hid). simpl.
  rewrite originating_tool_last. unfold recorded_tool. rewrite decide_False by done.
  assert (recorded_calls l = recorded_calls (take i l) ++ recorded_calls (drop i l))
    as Hsplit by (by rewrite <-recorded_calls_app, take_drop).
  rewrite Hsplit in Hdup. rewrite Hsplit, filter_app.
  assert (filter (λ tc0, tc_id tc0 = tc_id tc) (recorded_calls (drop i l)) = []) as ->.
  { rewrite fmap_app in Hdup. apply NoDup_app in Hdup as (_ & Hsep & _).
    destruct (filter _ (recorded_calls (drop i l))) as [|tc' ?] eqn:Hf; [done|].
    assert (tc' ∈ filter (λ tc0, tc_id tc0 = tc_id tc) (recorded_calls (drop i l)))
      as [Heq Hin']%list_elem_of_filter by (rewrite Hf; left).
    exfalso. apply (Hsep (tc_id tc)).
    - by apply list_elem_of_fmap_2.
    - rewrite <-Heq. by apply list_elem_of_fmap_2. }
  by rewrite app_nil_r.
Qed.

End Tier1.

(** The spec recovers the tool from the assistant messages before the
    result; the code asks a map filled from all of them. *)
Example reused_ids_code :
  content <$> S06.micro_compact Cases.reused_ids !! 2 = Some (Some "[此前：已使用 read_file]").
Proof. vm_compute. reflexivity. Qed.

Example reused_ids_spec :
  content <$> S06.spec_micro_compact Cases.reused_ids !! 2 = Some (Some "[此前：已使用 bash]").
Proof. vm_compute. reflexivity. Qed.

(** C2, as the claim states it, fails: the placeholder of a result whose
    call id a later assistant message reuses names the later tool. *)
Lemma micro_compact_not_spec :
  S06.micro_compact Cases.reused_ids ≠ S06.spec_micro_compact Cases.reused_ids.
Proof. vm_compute. discriminate. Qed.

(** ** Running the monad *)

(** Unfolds the operations of the monad and of the world. *)
Ltac run :=
  unfold get_messages, set_messages, append, chat_create, time_now, of_sum in *;
  unfold mbind, M_bind, mret, M_ret, lift, modify, raise, try_except, get, put in *;
  cbn [fst snd messages world files dirs refuses clock_reads requests stdout
       todo_items set_files set_dirs set_todo_items add_stdout set_disk disk_of
       disk_files disk_dirs disk_refuses] in *.

Section Tame.
Context {S B : Type} (obs : S → B).

Lemma tame_ret {A} (a : A) : tame obs (mret a : M S A).
Proof. by intros s. Qed.

Lemma tame_raise {A} (e : exn) : tame obs (raise e : M S A).
Proof. by intros s. Qed.

Lemma tame_bind {A C} (m : M S A) (f : A → M S C) :
  tame obs m → (∀ a, tame obs (f a)) → tame obs (m ≫= f).
Proof.
  intros Hm Hf s. unfold mbind, M_bind. destruct (Hm s) as [Hobs Hend].
  destruct (m s) as [[a| |] s']; simpl in *; [|done..].
  destruct (Hf a s') as [Hobs' Hend']. by rewrite Hobs'.
Qed.

Lemma tame_try_except {A} (m : M S A) (h : exn → M S A) :
  tame obs m → (∀ e, tame obs (h e)) → tame obs (try_except m h).
Proof.
  intros Hm Hh s. unfold try_except. destruct (Hm s) as [Hobs Hend].
  destruct (m s) as [[a|e|] s']; simpl in *; [done| |done].
  destruct (Hh e s') as [Hobs' Hend']. by rewrite Hobs'.
Qed.

Lemma tame_modify (f : S → S) :
  (∀ s, obs (f s) = obs s) → tame obs (modify f).
Proof. intros Hf s. split; [apply Hf|done]. Qed.

(** What a handler raises, the loops that catch it turn into a result. *)
Lemma tame_caught {A} (m : M S A) (h : exn → A) (s : S) :
  tame obs m →
  ∃ a s', try_except m (λ e, mret (h e)) s = (Ok a, s') ∧ obs s' = obs s.
Proof.
  intros Hm. unfold try_except. destruct (Hm s) as [Hobs Hend].
  destruct (m s) as [[a|e|] s']; simpl in *; [by eauto..|done].
Qed.

End Tame.

Lemma tame_lift {A B} (obs : World → B) (m : M World A) :
  tame obs m → tame (obs ∘ world) (lift m).
Proof.
  intros Hm a. unfold lift. specialize (Hm (world a)).
  by destruct (m (world a)) as [r w].
Qed.

Create HintDb tame discriminated.
#[global] Hint Resolve tame_ret tame_raise tame_modify : tame.
#[global] Hint Extern 2 (tame _ (_ ≫= _)) => apply tame_bind; [|intros ?] : tame.
#[global] Hint Extern 2 (tame _ (try_except _ _)) =>
  apply tame_try_except; [|intros ?] : tame.
#[global] Hint Extern 2 (tame _ (lift _)) => apply tame_lift : tame.
#[global] Hint Extern 3 (tame _ (if ?b then _ else _)) => destruct b : tame.
#[global] Hint Extern 3 (tame _ (match ?x with _ => _ end)) => destruct x : tame.

Section ToolsTame.
Context `{Externals}.

Lemma of_sum_tame {A} (r : exn + A) : tame outside_files (of_sum r : M World A).
Proof. by destruct r. Qed.

Lemma print_tame line : tame outside_files (print line).
Proof. intros w. unfold print. by destruct (terminal line). Qed.

Lemma read_text_tame p : tame outside_files (read_text p).
Proof.
  intros w. unfold read_text. destruct (refuses w Reading p); [done|].
  destruct (is_dir w p); [done|]. by destruct (files w !! p).
Qed.

Lemma open_w_tame p : tame outside_files (open_w p).
Proof.
  intros w. unfold open_w. destruct (refuses w Writing p); [done|].
  destruct (is_dir w p); [done|]. by destruct (negb _).
Qed.

Lemma os_mkdir_tame d : tame outside_files (os_mkdir d).
Proof. intros w. unfold os_mkdir. by destruct (refuses w Making d). Qed.

#[local] Hint Resolve of_sum_tame print_tame read_text_tame open_w_tame
  os_mkdir_tame : tame.

Lemma write_text_tame p text : tame outside_files (write_text p text).
Proof. unfold write_text. auto with tame. Qed.

Lemma write_text_locale_tame p text : tame outside_files (write_text_locale p text).
Proof. unfold write_text_locale. auto 6 with tame. Qed.

Lemma mkdir_exist_ok_tame d : tame outside_files (mkdir_exist_ok d).
Proof.
  intros w. unfold mkdir_exist_ok. destruct (is_dir w d); [done|].
  destruct (is_file w d); [done|]. destruct (is_dir w (removelast d)); [|done].
  apply os_mkdir_tame.
Qed.

Lemma mkdir_parents_tame fuel d : tame outside_files (mkdir_parents fuel d).
Proof.
  revert d. induction fuel as [|fuel IH]; intros d w; cbn [mkdir_parents];
    (destruct (is_dir w d); [done|]); (destruct (is_file w d); [done|]);
    (destruct (is_dir w (removelast d)); [apply os_mkdir_tame|]);
    (destruct (below_file w d); [done|]); [done|].
  apply tame_bind; [apply IH|]. intros _. apply os_mkdir_tame.
Qed.

Lemma make_parent_tame fp : tame outside_files (make_parent fp).
Proof. apply mkdir_parents_tame. Qed.

Lemma safe_path_tame v p : tame outside_files (safe_path v p).
Proof. unfold safe_path. auto with tame. Qed.

Lemma run_shell_tame v run : tame outside_files (run_shell v run).
Proof. intros w. unfold run_shell. by destruct (run (disk_of w)) as [[out| |e] d]. Qed.

Lemma run_bash_tame v command : tame outside_files (run_bash v command).
Proof.
  unfold run_bash. destruct (existsb _ _); [auto with tame|]. apply run_shell_tame.
Qed.

Lemma run_bash_seq_tame v command : tame outside_files (run_bash_seq v command).
Proof.
  unfold run_bash_seq. destruct (existsb _ _); [auto with tame|]. apply run_shell_tame.
Qed.

#[local] Hint Resolve write_text_tame write_text_locale_tame mkdir_exist_ok_tame
  make_parent_tame safe_path_tame run_bash_tame run_bash_seq_tame : tame.

Lemma write_edited_tame v fp text : tame outside_files (write_edited v fp text).
Proof. unfold write_edited. destruct v; auto with tame. Qed.

#[local] Hint Resolve write_edited_tame : tame.

Lemma run_read_tame v p limit : tame outside_files (run_read v p limit).
Proof. unfold run_read. auto 10 with tame. Qed.

Lemma run_write_tame v p text : tame outside_files (run_write v p text).
Proof. unfold run_write. auto 10 with tame. Qed.

Lemma run_edit_tame v p old_text new_text :
  tame outside_files (run_edit v p old_text new_text).
Proof. unfold run_edit. auto 10 with tame. Qed.

Lemma kw_item_tame kw key : tame outside_files (kw_item kw key).
Proof. unfold kw_item. auto with tame. Qed.

Lemma as_str_tame site x : tame outside_files (as_str site x).
Proof. unfold as_str. auto with tame. Qed.

Lemma as_kwargs_tame x : tame outside_files (as_kwargs x).
Proof. unfold as_kwargs. auto with tame. Qed.

#[local] Hint Resolve run_read_tame run_write_tame run_edit_tame
  kw_item_tame as_str_tame as_kwargs_tame : tame.

Lemma run_read_with_tame v p limit : tame outside_files (run_read_with v p limit).
Proof. unfold run_read_with. auto 12 with tame. Qed.

Lemma run_write_with_tame v p c : tame outside_files (run_write_with v p c).
Proof. unfold run_write_with. auto 10 with tame. Qed.

Lemma run_edit_with_tame v p old_text new_text :
  tame outside_files (run_edit_with v p old_text new_text).
Proof. unfold run_edit_with. auto 12 with tame. Qed.

#[local] Hint Resolve run_read_with_tame run_write_with_tame run_edit_with_tame : tame.

Lemma base_handlers_tame v name h kw :
  base_handlers v name = Some h → tame outside_files (h kw).
Proof.
  unfold base_handlers. intros Hh.
  repeat case_decide; simplify_eq;
    unfold handle_bash, handle_read_file, handle_write_file, handle_edit_file.
  - apply tame_bind; [auto with tame|]. intros []; auto with tame.
  - apply tame_bind; [auto with tame|]. intros []; auto with tame.
  - apply tame_bind; [auto with tame|]. intros p.
    apply tame_bind; [auto with tame|]. intros c.
    destruct p; auto with tame; destruct c; auto with tame.
  - apply tame_bind; [auto with tame|]. intros p.
    apply tame_bind; [auto with tame|]. intros o.
    apply tame_bind; [auto with tame|]. intros n.
    destruct p; auto with tame; destruct o; auto with tame; destruct n; auto with tame.
Qed.

End ToolsTame.

(** ** The terminal and the tree *)

Lemma bind_assoc {S A B C} (m : M S A) (f : A → M S B) (g : B → M S C) (s : S) :
  ((m ≫= f) ≫= g) s = (m ≫= λ x, f x ≫= g) s.
Proof. unfold mbind, M_bind. by destruct (m s) as [[x|e|] s']. Qed.

Section Outside.
Context `{Externals}.

(** A line is shown, or the terminal's exception goes on. *)
Lemma print_cases line w :
  match terminal line with
  | None => print line w = (Ok tt, add_stdout line w)
  | Some e => print line w = (Raise e, w)
  end.
Proof. unfold print. by destruct (terminal line). Qed.

Lemma lift_print_cases line (a : Agent) :
  match terminal line with
  | None => lift (print line) a
            = (Ok tt, {| messages := messages a; world := add_stdout line (world a) |})
  | Some e => lift (print line) a = (Raise e, a)
  end.
Proof.
  unfold lift. pose proof (print_cases line (world a)) as Hp.
  destruct (terminal line); rewrite Hp; [by destruct a|done].
Qed.

(** Making a directory goes through exactly when it is there, or is
    missing below a directory and the system allows it. *)
Lemma mkdir_exist_ok_cases (d : path) (w : World) :
  if is_dir w d || (negb (is_file w d) && is_dir w (removelast d) && allowed w Making d)
  then mkdir_exist_ok d w =
         (Ok tt, set_dirs (if is_dir w d then dirs w else {[ d ]} ∪ dirs w) w)
  else ∃ e, mkdir_exist_ok d w = (Raise e, w).
Proof.
  unfold mkdir_exist_ok, os_mkdir, allowed.
  destruct (is_dir w d); [by destruct w|]. cbn [orb].
  destruct (is_file w d); [by eexists|]. cbn [negb andb].
  destruct (is_dir w (removelast d)); [|by eexists]. cbn [andb].
  destruct (refuses w Making d); [by eexists|done].
Qed.

(** Opening a file for writing goes through exactly when the system
    allows it, the path is no directory and its parent is one. *)
Lemma open_w_cases (p : path) (w : World) :
  if allowed w Writing p && negb (is_dir w p) && is_dir w (removelast p)
  then open_w p w = (Ok tt, set_files (<[p := ""]> (files w)) w)
  else ∃ e, open_w p w = (Raise e, w).
Proof.
  unfold open_w, allowed. destruct (refuses w Writing p); [by eexists|]. cbn [andb].
  destruct (is_dir w p); [by eexists|]. cbn [negb andb].
  destruct (is_dir w (removelast p)); [done|by eexists].
Qed.

End Outside.

(** ** The loop of s06 *)

Module Loop06.
Import S06.
Section Facts.
Context `{Externals}.

Lemma handlers06_tame name h kw :
  TOOL_HANDLERS name = Some h → tame outside_files (h kw).
Proof.
  unfold TOOL_HANDLERS. destruct (base_handlers S06 name) as [h'|] eqn:Hbase.
  - intros [= <-]. eauto using base_handlers_tame.
  - case_decide; [|done]. intros [= <-]. auto with tame.
Qed.

(** A call whose payload can be read yields a text, whatever the handler
    does; what [json.loads] raises otherwise goes on. *)
Lemma dispatch06_cases tc w :
  match parse_arguments tc with
  | inr _ => ∃ output w', dispatch tc w = (Ok output, w') ∧
                          outside_files w' = outside_files w
  | inl e => dispatch tc w = (Raise e, w)
  end.
Proof.
  unfold dispatch. destruct (parse_arguments tc) as [e|args]; [done|].
  unfold of_sum. unfold mbind at 1, M_bind at 1, mret at 1, M_ret at 1.
  apply (tame_caught outside_files).
  destruct (TOOL_HANDLERS (tc_name tc)) as [h|] eqn:Hh; [|auto with tame].
  apply tame_bind; [apply as_kwargs_tame|]. intros kw. eauto using handlers06_tame.
Qed.

(** The loop over the calls: it stops at the first payload that cannot be
    read and at the first line the terminal cannot show; the store has
    grown by the results of the calls before. *)
Lemma run_tool_calls06_any tcs manual a :
  ∃ r outputs a',
    run_tool_calls tcs manual a = (r, a') ∧
    (length outputs ≤ length tcs)%nat ∧
    messages a' = messages a ++ tool_results tcs outputs ∧
    outside_files (world a') = outside_files (world a) ∧
    match r with
    | Ok b => length outputs = length tcs ∧ b = manual || calls_tool "compact" tcs
    | Raise e =>
        (∃ tc, tc ∈ tcs ∧ tc_name tc ≠ "compact" ∧ parse_arguments tc = inl e)
        ∨ (∃ line, terminal line = Some e)
    | OutOfFuel => False
    end.
Proof.
  revert manual a. induction tcs as [|tc tcs IH]; intros manual a.
  { exists (Ok manual), [], a. simpl. rewrite orb_false_r, app_nil_r. done. }
  cbn [run_tool_calls calls_tool existsb].
  assert (∃ r1 w1, (if decide (tc_name tc = "compact")
             then mret (true, "正在压缩...")
             else lift (dispatch tc) ≫= λ output, mret (manual, output)) a
            = (r1, {| messages := messages a; world := w1 |}) ∧
            outside_files w1 = outside_files (world a) ∧
            match r1 with
            | Ok (b, _) => b = manual || bool_decide (tc_name tc = "compact")
            | Raise e => tc_name tc ≠ "compact" ∧ parse_arguments tc = inl e
            | OutOfFuel => False
            end) as (r1 & w1 & Hfirst & Hw1 & Hr1).
  { destruct (decide (tc_name tc = "compact")) as [Hname|Hname].
    - exists (Ok (true, "正在压缩...")), (world a). destruct a. split_and!; [done..|].
      by rewrite (bool_decide_eq_true_2 _ Hname), orb_true_r.
    - pose proof (dispatch06_cases tc (world a)) as Hd.
      unfold mbind, M_bind, lift. destruct (parse_arguments tc) as [e|args].
      + rewrite Hd. exists (Raise e), (world a). by destruct a.
      + destruct Hd as (output & w' & -> & Hw'). exists (Ok (manual, output)), w'.
        split_and!; [done..|]. by rewrite (bool_decide_eq_false_2 _ Hname), orb_false_r. }
  unfold mbind at 1, M_bind at 1. rewrite Hfirst.
  destruct r1 as [[b output]|e|]; [| |done].
  2:{ exists (Raise e), [], {| messages := messages a; world := w1 |}.
      cbn [messages world length tool_results zip_with]. rewrite app_nil_r.
      split_and!; [done|lia|done|done|]. left. exists tc.
      split; [apply list_elem_of_here|done]. }
  unfold mbind at 1, M_bind at 1, lift at 1. cbn [world messages].
  pose proof (print_cases ("> " +:+ tc_name tc +:+ ": " +:+ PyStr.take 200%N output) w1) as Hp.
  destruct (terminal _) as [e|] eqn:Hterm; rewrite Hp.
  { exists (Raise e), [], {| messages := messages a; world := w1 |}.
    cbn [messages world length tool_results zip_with]. rewrite app_nil_r.
    split_and!; [done|lia|done|done|]. right. eauto. }
  unfold mbind at 1, M_bind at 1, append at 1, modify at 1. cbn [messages world].
  edestruct IH as (r & outputs & a' & -> & Hlen & Hmsgs & Hout & Hr).
  exists r, (output :: outputs), a'. cbn [messages world] in *.
  split_and!; [done|simpl; lia| | |].
  - rewrite Hmsgs. cbn [tool_results zip_with]. by rewrite <-app_assoc.
  - by rewrite Hout.
  - destruct r as [b'|e|]; [| |done].
    + destruct Hr as [Hlen' ->]. split; [simpl; lia|]. subst b. by rewrite orb_assoc.
    + destruct Hr as [(tc' & Hin & Hr)|Hr]; [left|by right].
      exists tc'. split; [by apply list_elem_of_further|done].
Qed.

(** *** The compaction *)

Lemma transcript_file_parent t :
  removelast (transcript_file t) = TRANSCRIPT_DIR ∧ transcript_file t ≠ TRANSCRIPT_DIR.
Proof.
  unfold transcript_file. split; [apply removelast_last|].
  intros Heq%(f_equal length). rewrite length_app in Heq. simpl in Heq. lia.
Qed.

(** What [auto_compact] does: with the file system and the terminal
    willing, it stores the transcript, asks for the summary and returns
    the two messages; otherwise it raises before any request is sent, and
    no file but the transcript of this second can have changed. *)
Lemma auto_compact_cases (msgs : list message) (w : World) :
  let p := transcript_file (time_time (clock_reads w)) in
  let log := requests w ++ [summary_request msgs] in
  if can_store w
  then auto_compact msgs w =
         (Ok (compacted p (PyStr.strip (content_or_empty (chat log)))),
          stored_world msgs w)
  else ∃ e w', auto_compact msgs w = (Raise e, w') ∧
               requests w' = requests w ∧
               ∀ q, q ≠ p → files w' !! q = files w !! q.
Proof.
  intros p log. unfold can_store, auto_compact. cbn zeta. fold p.
  destruct (transcript_file_parent (time_time (clock_reads w))) as [Hparent Hne].
  fold p in Hparent, Hne.
  pose proof (mkdir_exist_ok_cases TRANSCRIPT_DIR w) as Hmk.
  unfold mbind, M_bind. cbn beta.
  destruct (_ || _).
  2:{ destruct Hmk as [e Hmk]. cbn [andb]. exists e, w. rewrite Hmk. done. }
  rewrite Hmk. clear Hmk. cbn [andb]. cbn beta iota.
  set (w1 := set_dirs _ w).
  unfold time_now at 1 2. cbn beta iota. change (clock_reads w1) with (clock_reads w).
  fold p. set (w2 := {| files := files w1 |}).
  assert (is_dir w2 TRANSCRIPT_DIR = true) as Hdir.
  { unfold is_dir, w2, w1. cbn [dirs set_dirs].
    destruct (is_dir w TRANSCRIPT_DIR) eqn:Hd; [exact Hd|].
    apply bool_decide_eq_true_2. right. apply elem_of_union_l, elem_of_singleton. done. }
  assert (is_dir w2 p = is_dir w p) as Hp.
  { unfold is_dir, w2, w1. cbn [dirs set_dirs].
    destruct (is_dir w TRANSCRIPT_DIR); [done|].
    apply bool_decide_ext. rewrite elem_of_union, elem_of_singleton.
    clear -Hne. tauto. }
  pose proof (open_w_cases p w2) as Hopen.
  rewrite Hparent, Hdir, Hp, andb_true_r in Hopen.
  change (allowed w2 Writing p) with (allowed w Writing p) in Hopen.
  unfold write_text. unfold mbind, M_bind. cbn beta.
  destruct (allowed w Writing p && negb (is_dir w p)).
  2:{ destruct Hopen as [e Hopen]. cbn [andb]. exists e, w2. rewrite Hopen. done. }
  rewrite Hopen. clear Hopen. cbn [andb]. unfold modify. cbn beta iota.
  set (w3 := set_files (<[p:=encode (transcript_text msgs)]> _) _).
  unfold shown.
  pose proof (print_cases ("[笔录已保存: " +:+ path_str p +:+ "]") w3) as Hprint.
  destruct (terminal _) as [e|]; rewrite Hprint; cbn beta iota.
  { exists e, w3. split; [done|]. split; [done|]. intros q Hq.
    unfold w3. cbn [files set_files w2 w1 set_dirs]. by rewrite !lookup_insert_ne. }
  unfold chat_create, mret, M_ret.
  f_equal. unfold stored_world. cbn zeta. fold p.
  unfold w3. cbn [files dirs refuses clock_reads requests stdout todo_items add_stdout
                  set_files set_dirs w2 w1].
  by rewrite insert_insert_eq.
Qed.

Lemma compact_store_cases (a : Agent) :
  let p := transcript_file (time_time (clock_reads (world a))) in
  let log := requests (world a) ++ [summary_request (messages a)] in
  if can_store (world a)
  then compact_store a =
         (Ok tt, {| messages := compacted p (PyStr.strip (content_or_empty (chat log)));
                    world := stored_world (messages a) (world a) |})
  else ∃ e a', compact_store a = (Raise e, a') ∧
               messages a' = messages a ∧
               requests (world a') = requests (world a) ∧
               ∀ q, q ≠ p → files (world a') !! q = files (world a) !! q.
Proof.
  intros p log. pose proof (auto_compact_cases (messages a) (world a)) as Hc.
  cbn zeta in Hc. fold p log in Hc.
  unfold compact_store, get_messages, set_messages, lift, modify.
  unfold mbind, M_bind. cbn beta iota.
  destruct (can_store (world a)).
  - by rewrite Hc.
  - destruct Hc as (e & w' & Hc & Hrq & Hfiles).
    exists e, {| messages := messages a; world := w' |}. by rewrite Hc.
Qed.

(** C1, as amended. A compaction, whichever way it is triggered, makes
    the transcript directory if it is missing, stores the serialised
    message sequence under the transcript name of the current second,
    creating that file or replacing its content, and leaves every other
    file alone; it then sends one request for a summary and replaces the
    store by two messages: a user message with the path of the transcript
    and the stripped reply to that request, and the assistant's
    acknowledgment.  Where the transcript cannot be stored or the terminal
    cannot show the notice, the compaction raises instead: the store
    stays, no request is sent, and no file but that transcript can have
    changed. *)
Theorem compact_store_spec (a : Agent) :
  let p := transcript_file (time_time (clock_reads (world a))) in
  let log := requests (world a) ++ [summary_request (messages a)] in
  if can_store (world a)
  then ∃ a',
    compact_store a = (Ok tt, a') ∧
    messages a' = compacted p (PyStr.strip (content_or_empty (chat log))) ∧
    role <$> messages a' = ["user"; "assistant"] ∧
    files (world a') = <[p := encode (transcript_text (messages a))]> (files (world a)) ∧
    requests (world a') = log
  else ∃ e a',
    compact_store a = (Raise e, a') ∧
    messages a' = messages a ∧
    requests (world a') = requests (world a) ∧
    ∀ q, q ≠ p → files (world a') !! q = files (world a) !! q.
Proof.
  intros p log. pose proof (compact_store_cases a) as Hc. cbn zeta in Hc.
  fold p log in Hc. destruct (can_store (world a)); [|done].
  eexists. split; [exact Hc|]. done.
Qed.

Lemma pre_request_eq (a : Agent) :
  pre_request a =
    let a1 := {| messages := micro_compact (messages a); world := world a |} in
    if (THRESHOLD <? estimate_tokens (messages a1))%N
    then (lift (print "[自动压缩已触发]") ≫= λ _, compact_store) a1
    else (Ok tt, a1).
Proof.
  unfold pre_request. run. by destruct (_ <? _)%N.
Qed.

(** The body of the loop from the request on, reply by reply. *)
Lemma turn_eq (a : Agent) :
  let rq := model_request (messages a) in
  let r := chat (requests (world a) ++ [rq]) in
  let w1 := (chat_create rq (world a)).2 in
  turn a =
    match rs_tool_calls r with
    | [] =>
        (lift (print (PyStr.strip (content_or_empty r))) ≫= λ _, mret Return)
          {| messages := messages a ++ [assistant_message (PyStr.strip (content_or_empty r))];
             world := w1 |}
    | tcs =>
        (run_tool_calls tcs false ≫= λ manual_compact : bool,
         (if manual_compact
          then lift (print "[手动压缩]") ≫= λ _, compact_store
          else mret tt) ≫= λ _, mret Continue)
          {| messages := messages a ++ [assistant_calls_message (content_or_empty r) tcs];
             world := w1 |}
    end.
Proof.
  intros rq r w1. unfold turn.
  unfold mbind at 1, M_bind at 1, get_messages at 1. cbn beta iota.
  unfold mbind at 1, M_bind at 1, lift at 1, chat_create at 1.
  cbn [world messages requests]. fold rq r.
  by destruct (rs_tool_calls r).
Qed.

(** With a terminal that shows every line and payloads that can be read,
    the pass appends one result per call. *)
Lemma turn06_spec (a : Agent) :
  (∀ line, terminal line = None) →
  let rq := model_request (messages a) in
  let r := chat (requests (world a) ++ [rq]) in
  Forall (λ tc, tc_name tc = "compact" ∨ parsed tc) (rs_tool_calls r) →
  ∃ a3,
    turn_appends PyStr.strip (messages a) (messages a3) r ∧
    requests (world a3) = requests (world a) ++ [rq] ∧
    turn a =
      match rs_tool_calls r with
      | [] => (Ok Return, a3)
      | tcs =>
          if calls_tool "compact" tcs
          then (lift (print "[手动压缩]") ≫= λ _, compact_store ≫= λ _, mret Continue) a3
          else (Ok Continue, a3)
      end.
Proof.
  intros Hshow rq r Hparsed. rewrite turn_eq. cbn zeta. fold rq r.
  unfold turn_appends. destruct (rs_tool_calls r) as [|tc tcs] eqn:Hcalls.
  - unfold mbind, M_bind.
    pose proof (lift_print_cases (PyStr.strip (content_or_empty r))
      {| messages := messages a ++ [assistant_message (PyStr.strip (content_or_empty r))];
         world := (chat_create rq (world a)).2 |}) as Hp.
    rewrite Hshow in Hp. rewrite Hp. eexists. split_and!; [..|reflexivity]; done.
  - set (a1 := {| messages := _; world := _ |}).
    destruct (run_tool_calls06_any (tc :: tcs) false a1)
      as (res & outputs & a3 & Hrun & _ & Hmsgs & Hout & Hres).
    destruct res as [b|e|]; [| |done].
    2:{ exfalso. destruct Hres as [(tc' & Hin & Hname & Hraise)|[line Hline]].
        - rewrite Forall_forall in Hparsed. destruct (Hparsed tc' Hin) as [?|[args Hargs]]; [done|].
          by rewrite Hargs in Hraise.
        - by rewrite Hshow in Hline. }
    destruct Hres as [Hlen Hb]. rewrite orb_false_l in Hb. subst b.
    exists a3. split_and!.
    + exists outputs. split; [done|]. rewrite Hmsgs. unfold a1. cbn [messages].
      by rewrite <-app_assoc.
    + injection Hout as -> _ _. done.
    + unfold mbind at 1, M_bind at 1. rewrite Hrun.
      destruct (calls_tool "compact" (tc :: tcs)); [|done].
      by rewrite bind_assoc.
Qed.

(** The request to the model is the first thing a pass from the request
    on sends; a request for a summary may follow it. *)
Lemma turn06_requests (a : Agent) :
  ∃ r a3 later,
    turn a = (r, a3) ∧
    requests (world a3) = requests (world a) ++ model_request (messages a) :: later.
Proof.
  rewrite turn_eq. cbn zeta.
  set (rq := model_request (messages a)).
  set (r := chat (requests (world a) ++ [rq])).
  destruct (rs_tool_calls r) as [|tc tcs].
  - set (a1 := {| messages := _; world := _ |}).
    pose proof (lift_print_cases (PyStr.strip (content_or_empty r)) a1) as Hp.
    unfold mbind, M_bind. destruct (terminal _); rewrite Hp; by eexists _, _, [].
  - set (a1 := {| messages := _; world := _ |}).
    destruct (run_tool_calls06_any (tc :: tcs) false a1)
      as (res & outputs & a3 & Hrun & _ & _ & Hout & _).
    assert (requests (world a3) = requests (world a) ++ [rq]) as Hrq.
    { injection Hout as -> _ _. done. }
    unfold mbind at 1, M_bind at 1. rewrite Hrun.
    destruct res as [[]|e|]; [| |by eexists _, _, []..].
    + rewrite bind_assoc. unfold mbind at 1, M_bind at 1.
      pose proof (lift_print_cases "[手动压缩]" a3) as Hp.
      destruct (terminal _); rewrite Hp; [by eexists _, _, []|].
      set (a4 := {| messages := messages a3; world := _ |}).
      pose proof (compact_store_cases a4) as Hc. cbn zeta in Hc.
      unfold mbind, M_bind. destruct (can_store (world a4)).
      * rewrite Hc. eexists _, _, [_]. split; [reflexivity|].
        cbn [world requests stored_world a4 add_stdout]. by rewrite Hrq, <-app_assoc.
      * destruct Hc as (e & a5 & -> & _ & Hrq5 & _). eexists _, _, []. split; [reflexivity|].
        by rewrite Hrq5.
    + by eexists _, _, [].
Qed.

Lemma iteration06_eq (a : Agent) :
  iteration a =
    match pre_request a with
    | (Ok _, a2) => turn a2
    | (Raise e, a2) => (Raise e, a2)
    | (OutOfFuel, a2) => (OutOfFuel, a2)
    end.
Proof. reflexivity. Qed.

(** C4. In every pass of the loop, tier 1 runs first; the estimate is
    taken of the store it leaves, and tier 2 fires exactly when that
    estimate exceeds the threshold, compacting the micro-compacted store.
    When the hooks return, the request to the model follows and carries
    the store they leave; when the compaction raises, the pass ends with
    that exception and no request has been sent. *)
Theorem hooks_before_request (a : Agent) :
  let a1 := {| messages := micro_compact (messages a); world := world a |} in
  let fires := (THRESHOLD <? estimate_tokens (messages a1))%N in
  let p := transcript_file (time_time (clock_reads (world a))) in
  let log := requests (world a) ++ [summary_request (messages a1)] in
  pre_request a =
    (if fires then (lift (print "[自动压缩已触发]") ≫= λ _, compact_store) a1
     else (Ok tt, a1)) ∧
  match pre_request a with
  | (Ok _, a2) =>
      (if fires
       then messages a2 = compacted p (PyStr.strip (content_or_empty (chat log))) ∧
            files (world a2)
              = <[p := encode (transcript_text (messages a1))]> (files (world a)) ∧
            requests (world a2) = log
       else a2 = a1) ∧
      ∃ r a3 later,
        iteration a = (r, a3) ∧
        requests (world a3) = requests (world a2) ++ model_request (messages a2) :: later
  | (Raise e, a2) =>
      iteration a = (Raise e, a2) ∧ requests (world a2) = requests (world a)
  | (OutOfFuel, _) => False
  end.
Proof.
  intros a1 fires p log. split; [apply pre_request_eq|].
  rewrite iteration06_eq, pre_request_eq. cbn zeta. fold a1 fires.
  destruct fires.
  2:{ split; [done|]. apply turn06_requests. }
  unfold mbind, M_bind.
  pose proof (lift_print_cases "[自动压缩已触发]" a1) as Hp.
  destruct (terminal _); rewrite Hp; [done|].
  set (a1' := {| messages := messages a1; world := _ |}).
  pose proof (compact_store_cases a1') as Hc. cbn zeta in Hc.
  destruct (can_store (world a1')).
  - rewrite Hc. split; [|apply turn06_requests]. done.
  - destruct Hc as (e & a2 & -> & _ & Hrq & _). done.
Qed.

Lemma turn06_outcome (a : Agent) :
  match turn a with
  | (Ok Return, a3) =>
      let r := chat (requests (world a3)) in
      rs_tool_calls r = [] ∧
      last (messages a3) = Some (assistant_message (PyStr.strip (content_or_empty r)))
  | (Ok Continue, _) => True
  | (Raise e, _) => ends_pass06 e
  | (OutOfFuel, _) => False
  end.
Proof.
  rewrite turn_eq. cbn zeta.
  set (rq := model_request (messages a)).
  set (r := chat (requests (world a) ++ [rq])).
  destruct (rs_tool_calls r) as [|tc tcs] eqn:Hcalls.
  - set (a1 := {| messages := _; world := _ |}).
    pose proof (lift_print_cases (PyStr.strip (content_or_empty r)) a1) as Hp.
    unfold mbind, M_bind. destruct (terminal _) eqn:Hterm; rewrite Hp.
    + right. left. eauto.
    + cbn. fold rq r. split; [done|]. by rewrite last_snoc.
  - set (a1 := {| messages := _; world := _ |}).
    destruct (run_tool_calls06_any (tc :: tcs) false a1)
      as (res & outputs & a3 & Hrun & _ & _ & _ & Hres).
    unfold mbind at 1, M_bind at 1. rewrite Hrun.
    destruct res as [[]|e|]; [| | |done].
    + rewrite bind_assoc. unfold mbind at 1, M_bind at 1.
      pose proof (lift_print_cases "[手动压缩]" a3) as Hp.
      destruct (terminal _) eqn:Hterm; rewrite Hp; [right; left; eauto|].
      set (a4 := {| messages := messages a3; world := _ |}).
      unfold mbind, M_bind.
      destruct (compact_store a4) as [[[]|e|] a5] eqn:Hc; [done| |].
      * right. right. eauto.
      * pose proof (compact_store_cases a4) as Hc'. cbn zeta in Hc'.
        destruct (can_store _); [by rewrite Hc in Hc'|].
        destruct Hc' as (? & ? & Hc' & _). by rewrite Hc in Hc'.
    + done.
    + destruct Hres as [(tc' & _ & _ & Hraise)|Hline]; [left; eauto|right; left; done].
Qed.

Lemma pre_request_outcome (a : Agent) :
  match pre_request a with
  | (Ok _, _) => True
  | (Raise e, _) => ends_pass06 e
  | (OutOfFuel, _) => False
  end.
Proof.
  rewrite pre_request_eq. cbn zeta. destruct (_ <? _)%N; [|done].
  set (a1 := {| messages := _; world := _ |}).
  pose proof (lift_print_cases "[自动压缩已触发]" a1) as Hp.
  unfold mbind, M_bind. destruct (terminal _) eqn:Hterm; rewrite Hp; [right; left; eauto|].
  set (a2 := {| messages := messages a1; world := _ |}).
  destruct (compact_store a2) as [[[]|e|] a3] eqn:Hc; [done| |].
  - right. right. eauto.
  - pose proof (compact_store_cases a2) as Hc'. cbn zeta in Hc'.
    destruct (can_store _); [by rewrite Hc in Hc'|].
    destruct Hc' as (? & ? & Hc' & _). by rewrite Hc in Hc'.
Qed.
End Facts.
End Loop06.

(** ** The progress list of s03 *)

Module TodoFacts.
Import S03 Todo.
Section Facts.
Context `{Externals}.

Lemma normalise_from_cons i item items :
  normalise_from i (item :: items) =
    {| todo_id := id_of i item; todo_text := text_of item; todo_status := status_of item |}
    :: normalise_from (S i) items.
Proof.
  unfold normalise_from. rewrite imap_cons, Nat.add_0_r. f_equal.
  apply imap_ext. intros j x _. simpl. by rewrite Nat.add_succ_r.
Qed.

(** The loop over the items stops at the first item without text or with
    a status outside the three; otherwise it normalises all of them and
    counts those in progress. *)
Lemma validate_spec items i validated count w :
  if decide (Exists (λ item, text_of item = "") items
             ∨ Exists (λ item, status_of item ∉ statuses) items)
  then ∃ msg, validate i (PDict <$> items) validated count w = (Raise (ValueError msg), w)
  else validate i (PDict <$> items) validated count w =
         (Ok (validated ++ normalise_from i items,
              count + length (filter (λ item, status_of item = "in_progress") items)), w).
Proof.
  revert i validated count.
  induction items as [|item items IH]; intros i validated count.
  { rewrite decide_False.
    - simpl. by rewrite app_nil_r, Nat.add_0_r.
    - intros [?%Exists_nil|?%Exists_nil]; done. }
  rewrite fmap_cons. cbn [validate]. unfold item_get. run.
  fold (text_of item) (status_of item) (id_of i item).
  destruct (decide (text_of item = "")) as [Htext|Htext].
  { rewrite decide_True by (left; by left). by eexists. }
  case_bool_decide as Hstatus.
  { rewrite decide_True by (right; by left). by eexists. }
  specialize (IH (S i)
    (validated ++ [ {| todo_id := id_of i item; todo_text := text_of item;
                       todo_status := status_of item |} ])
    (if decide (status_of item = "in_progress") then S count else count)).
  destruct (decide (Exists _ items ∨ Exists _ items)) as [Hbad|Hgood].
  - rewrite decide_True; [done|].
    destruct Hbad as [?|?]; [left|right]; by right.
  - rewrite decide_False.
    + rewrite IH, normalise_from_cons, filter_cons, <-app_assoc. simpl.
      destruct (decide (status_of item = "in_progress")); simpl; do 3 f_equal; lia.
    + intros [[?|?]%Exists_cons|[?|?]%Exists_cons]; tauto.
Qed.

Lemma update_cases items w :
  if decide (rejected items)
  then ∃ msg, update (PDict <$> items) w = (Raise (ValueError msg), w)
  else update (PDict <$> items) w =
         (Ok (render (normalise items)), set_todo_items (normalise items) w).
Proof.
  unfold update. rewrite length_fmap. case_bool_decide as Hlen.
  { rewrite decide_True by (by left). by eexists. }
  run. pose proof (validate_spec items 0 [] 0 w) as Hv.
  destruct (decide (_ ∨ _)) as [Hbad|Hgood].
  { destruct Hv as [msg ->]. rewrite decide_True by (unfold rejected; tauto).
    by eexists. }
  rewrite Hv. cbn [app Nat.add]. fold (normalise items).
  case_bool_decide as Hcount.
  { rewrite decide_True by (by do 3 right). by eexists. }
  rewrite decide_False; [done|]. unfold rejected. tauto.
Qed.

(** A call of the [todo] tool reaches [update] with the submitted items,
    and what [update] raises becomes the text of the result. *)
Lemma dispatch_todo tc items w :
  tc_name tc = "todo" → parse_arguments tc = inr (todo_arguments items) →
  dispatch tc w =
    try_except (update (PDict <$> items)) (λ e, mret ("错误：" +:+ str_exn e)) w.
Proof.
  intros Hname Hargs. unfold dispatch. rewrite Hname, Hargs.
  change (TOOL_HANDLERS "todo") with (Some handle_todo).
  unfold todo_arguments, as_kwargs. run. unfold handle_todo, kw_item.
  rewrite lookup_singleton_eq. run. by destruct (update _ w) as [[?|?|] ?].
Qed.

(** C8, as amended. [update] fails exactly when more than 20 items are
    submitted, or the text of some item is empty once the surrounding
    white space is removed, or the status of some item, in lower case, is
    none of pending, in_progress and completed, or more than one item is,
    in lower case, in_progress; the failure leaves the stored list as it
    was and its message becomes the text of the tool's result; a
    submission that is accepted replaces the stored list by its items,
    normalised. *)
Theorem update_spec items w :
  if decide (rejected items)
  then ∃ msg,
    update (PDict <$> items) w = (Raise (ValueError msg), w) ∧
    ∀ tc, tc_name tc = "todo" → parse_arguments tc = inr (todo_arguments items) →
      dispatch tc w = (Ok ("错误：" +:+ msg), w)
  else update (PDict <$> items) w =
         (Ok (render (normalise items)), set_todo_items (normalise items) w).
Proof.
  pose proof (update_cases items w) as Hu.
  destruct (decide (rejected items)); [|done].
  destruct Hu as [msg Hu]. exists msg. split; [done|].
  intros tc Hname Hargs. rewrite (dispatch_todo tc items) by done.
  unfold try_except. by rewrite Hu.
Qed.

End Facts.
End TodoFacts.

(** The claim's conditions are on the fields as submitted; the code tests
    them stripped and in lower case: a text of spaces is refused, a status
    in capitals is accepted. *)
Lemma update_not_as_claimed :
  let E := Script.externals [] [] 0 in
  (¬ Todo.spec_rejected TodoCases.blank_text ∧
   S03.update (PDict <$> TodoCases.blank_text) Script.empty_world
     = (Raise (ValueError "项 1：必须填写内容"), Script.empty_world)) ∧
  (Todo.spec_rejected TodoCases.capitals ∧
   (S03.update (PDict <$> TodoCases.capitals) Script.empty_world).1
     = Ok "[>] #1: build

（已完成 0/1 项）").
Proof.
  intros E. split_and!.
  - apply (bool_decide_eq_false_1 _). vm_compute. reflexivity.
  - vm_compute. reflexivity.
  - apply (bool_decide_eq_true_1 _). vm_compute. reflexivity.
  - vm_compute. reflexivity.
Qed.

(** Two items in progress: the submission is refused as a whole, the
    stored list stays, and the call of the tool results in the message. *)
Lemma update_spec_witness :
  let E := Script.externals []
             [(TodoCases.two_in_progress_payload,
               Todo.todo_arguments TodoCases.two_in_progress)] 0 in
  S03.dispatch (ToolCall "call_1" "todo" TodoCases.two_in_progress_payload)
    TodoCases.stored
  = (Ok "错误：同一时间只能有一个任务为进行中", TodoCases.stored).
Proof.
  intros E.
  pose proof (TodoFacts.update_spec TodoCases.two_in_progress TodoCases.stored) as Hu.
  destruct (decide (Todo.rejected TodoCases.two_in_progress)) as [_|Hno].
  - destruct Hu as (msg & Hu & Hd).
    rewrite (Hd (ToolCall "call_1" "todo" TodoCases.two_in_progress_payload));
      [|reflexivity|vm_compute; reflexivity].
    vm_compute in Hu. by injection Hu as <-.
  - exfalso. apply Hno. apply (bool_decide_eq_true_1 _). vm_compute. reflexivity.
Defined.

(** ** The loop of s03 *)

Module Loop03.
Import S03.
Section Facts.
Context `{Externals}.

Lemma tame_requests {A} (m : M World A) :
  tame outside_files m → tame requests m.
Proof.
  intros Hm w. destruct (Hm w) as [Hobs Hend]. split; [|done].
  by injection Hobs.
Qed.

Lemma validate_tame items i validated count :
  tame requests (validate i items validated count).
Proof.
  revert i validated count. induction items as [|item items IH];
    intros i validated count; cbn [validate]; [auto with tame|].
  unfold item_get. destruct item; auto 15 with tame.
Qed.

Lemma update_tame items : tame requests (update items).
Proof.
  unfold update. case_bool_decide; [auto with tame|].
  apply tame_bind; [apply validate_tame|]. intros [validated count].
  case_bool_decide; auto with tame.
Qed.

Lemma handlers03_tame name h kw :
  TOOL_HANDLERS name = Some h → tame requests (h kw).
Proof.
  unfold TOOL_HANDLERS. destruct (base_handlers S03 name) as [h'|] eqn:Hbase.
  - intros [= <-]. eauto using tame_requests, base_handlers_tame.
  - case_decide; [|done]. intros [= <-]. unfold handle_todo.
    apply tame_bind; [apply tame_requests, kw_item_tame|].
    intros []; auto using update_tame with tame.
Qed.

(** A call whose payload can be read yields a text, whatever the handler
    does; what [json.loads] raises otherwise goes on. *)
Lemma dispatch03_cases tc w :
  match parse_arguments tc with
  | inr _ => ∃ output w', dispatch tc w = (Ok output, w') ∧ requests w' = requests w
  | inl e => dispatch tc w = (Raise e, w)
  end.
Proof.
  unfold dispatch. destruct (parse_arguments tc) as [e|args]; [done|].
  unfold of_sum. unfold mbind at 1, M_bind at 1, mret at 1, M_ret at 1.
  apply (tame_caught requests).
  destruct (TOOL_HANDLERS (tc_name tc)) as [h|] eqn:Hh; [|auto with tame].
  apply tame_bind; [apply tame_requests, as_kwargs_tame|].
  intros kw. eauto using handlers03_tame.
Qed.

(** The loop over the calls: it stops at the first payload that cannot be
    read and at the first line the terminal cannot show; the store has
    grown by the results of the calls before. *)
Lemma run_tool_calls03_any tcs used a :
  ∃ r outputs a',
    run_tool_calls tcs used a = (r, a') ∧
    (length outputs ≤ length tcs)%nat ∧
    messages a' = messages a ++ tool_results tcs outputs ∧
    requests (world a') = requests (world a) ∧
    match r with
    | Ok b => length outputs = length tcs ∧ b = used || calls_tool "todo" tcs
    | Raise e =>
        (∃ tc, tc ∈ tcs ∧ parse_arguments tc = inl e) ∨ (∃ line, terminal line = Some e)
    | OutOfFuel => False
    end.
Proof.
  revert used a. induction tcs as [|tc tcs IH]; intros used a.
  { exists (Ok used), [], a. simpl. rewrite orb_false_r, app_nil_r. done. }
  cbn [run_tool_calls calls_tool existsb].
  unfold mbind at 1, M_bind at 1, lift at 1.
  pose proof (dispatch03_cases tc (world a)) as Hd.
  destruct (parse_arguments tc) as [e|args] eqn:Hparse.
  { rewrite Hd. exists (Raise e), [], a. cbn [length tool_results zip_with].
    rewrite app_nil_r. destruct a. split_and!; [done|lia|done|done|].
    left. exists tc. split; [apply list_elem_of_here|done]. }
  destruct Hd as (output & w1 & -> & Hw1).
  unfold mbind at 1, M_bind at 1, lift at 1. cbn [world messages].
  pose proof (print_cases
                ("> " +:+ tc_name tc +:+ ": " +:+ PyStr.take 200%N output) w1) as Hp.
  destruct (terminal _) as [e|] eqn:Hterm; rewrite Hp.
  { exists (Raise e), [], {| messages := messages a; world := w1 |}.
    cbn [messages world length tool_results zip_with]. rewrite app_nil_r.
    split_and!; [done|lia|done|done|]. right. eauto. }
  unfold mbind at 1, M_bind at 1, append at 1, modify at 1. cbn [messages world].
  edestruct IH as (r & outputs & a' & -> & Hlen & Hmsgs & Hout & Hr).
  exists r, (output :: outputs), a'. cbn [messages world] in *.
  split_and!; [done|simpl; lia| | |].
  - rewrite Hmsgs. cbn [tool_results zip_with]. by rewrite <-app_assoc.
  - by rewrite Hout.
  - destruct r as [b'|e|]; [| |done].
    + destruct Hr as [Hlen' ->]. split; [simpl; lia|].
      destruct (decide (tc_name tc = "todo")) as [Hname|Hname].
      * rewrite (bool_decide_eq_true_2 _ Hname). by rewrite orb_true_r.
      * by rewrite (bool_decide_eq_false_2 _ Hname).
    + destruct Hr as [(tc' & Hin & Hr)|Hr]; [left|by right].
      exists tc'. split; [by apply list_elem_of_further|done].
Qed.

(** The test at the head of the body never raises. *)
Lemma inject_reminder_ok rounds a :
  ∃ a2, inject_reminder rounds a = (Ok tt, a2) ∧ world a2 = world a.
Proof.
  unfold inject_reminder, modify. eexists. split; [done|].
  destruct (last (messages a)); [|done].
  destruct (_ && _); [|done]. by destruct (negb _).
Qed.

Lemma iteration03_eq rounds a a2 :
  inject_reminder rounds a = (Ok tt, a2) → iteration rounds a = turn rounds a2.
Proof. intros Hpre. unfold iteration, mbind, M_bind. by rewrite Hpre. Qed.

(** A pass of the loop from the request on: the request is sent; then
    either a payload cannot be read or a line cannot be shown, or the store
    grows by the reply and by one result per call. *)
Lemma turn03_cases rounds a :
  let rq := model_request (messages a) in
  let r := chat (requests (world a) ++ [rq]) in
  ∃ res a3,
    turn rounds a = (res, a3) ∧
    requests (world a3) = requests (world a) ++ [rq] ∧
    match res with
    | Ok out =>
        turn_appends PyStr.strip (messages a) (messages a3) r ∧
        out = match rs_tool_calls r with
              | [] => (Return, rounds)
              | tcs => (Continue, if calls_tool "todo" tcs then 0 else S rounds)
              end
    | Raise e =>
        (∃ tc, tc ∈ rs_tool_calls r ∧ parse_arguments tc = inl e)
        ∨ (∃ line, terminal line = Some e)
    | OutOfFuel => False
    end.
Proof.
  intros rq r. unfold turn, turn_appends.
  unfold mbind at 1, M_bind at 1, get_messages at 1. cbn beta iota.
  unfold mbind at 1, M_bind at 1, lift at 1, chat_create at 1.
  cbn [world messages requests]. fold rq r.
  destruct (rs_tool_calls r) as [|tc tcs] eqn:Hcalls.
  - unfold mbind at 1, M_bind at 1, append at 1, modify at 1. cbn [messages world].
    set (a1 := {| messages := _; world := _ |}).
    pose proof (lift_print_cases (PyStr.strip (content_or_empty r)) a1) as Hp.
    unfold mbind, M_bind. destruct (terminal _) eqn:Hterm; rewrite Hp.
    + eexists (Raise _), _. split_and!; [done..|]. right. eauto.
    + eexists (Ok _), _. split; [reflexivity|]. done.
  - unfold mbind at 1, M_bind at 1, append at 1, modify at 1. cbn [messages world].
    set (a1 := {| messages := _; world := _ |}).
    destruct (run_tool_calls03_any (tc :: tcs) false a1)
      as (res & outputs & a3 & Hrun & _ & Hmsgs & Hout & Hres).
    unfold mbind, M_bind. rewrite Hrun.
    destruct res as [b|e|]; [| |done].
    + destruct Hres as [Hlen ->]. rewrite orb_false_l.
      exists (Ok (Continue, if calls_tool "todo" (tc :: tcs) then 0 else S rounds)), a3.
      split; [by destruct (calls_tool "todo" (tc :: tcs))|].
      split; [done|]. split; [|done].
      exists outputs. split; [done|]. rewrite Hmsgs. unfold a1. cbn [messages].
      by rewrite <-app_assoc.
    + exists (Raise e), a3. done.
Qed.

(** A pass of the loop, from the store the reminder test leaves, with a
    terminal that shows every line and payloads that can be read. *)
Lemma iteration_spec rounds a a2 :
  (∀ line, terminal line = None) →
  inject_reminder rounds a = (Ok tt, a2) →
  let rq := model_request (messages a2) in
  let r := chat (requests (world a2) ++ [rq]) in
  Forall parsed (rs_tool_calls r) →
  ∃ a3,
    turn_appends PyStr.strip (messages a2) (messages a3) r ∧
    requests (world a3) = requests (world a2) ++ [rq] ∧
    iteration rounds a =
      (Ok match rs_tool_calls r with
          | [] => (Return, rounds)
          | tcs => (Continue, if calls_tool "todo" tcs then 0 else S rounds)
          end, a3).
Proof.
  intros Hshow Hpre rq r Hparsed. rewrite (iteration03_eq rounds a a2 Hpre).
  destruct (turn03_cases rounds a2) as (res & a3 & Hturn & Hrq & Hres).
  fold rq r in Hrq, Hres. rewrite Hturn. destruct res as [out|e|]; [| |done].
  - destruct Hres as [Happ ->]. by exists a3.
  - exfalso. destruct Hres as [(tc & Hin & Hraise)|[line Hline]].
    + rewrite Forall_forall in Hparsed. destruct (Hparsed tc Hin) as [args Hargs].
      by rewrite Hargs in Hraise.
    + by rewrite Hshow in Hline.
Qed.

Lemma tool_results_roles tcs outputs :
  Forall (λ m, role m = "tool") (tool_results tcs outputs).
Proof.
  unfold tool_results. revert outputs.
  induction tcs as [|tc tcs IH]; intros [|output outputs]; simpl; constructor; auto.
Qed.

Lemma tool_results_last before msg tcs outputs :
  tcs ≠ [] → length outputs = length tcs →
  ∃ m, last (before ++ msg :: tool_results tcs outputs) = Some m ∧ role m = "tool".
Proof.
  intros Htcs Hlen. pose proof (tool_results_roles tcs outputs) as Hall.
  assert (tool_results tcs outputs ≠ []) as Hne.
  { destruct tcs; [done|]. by destruct outputs. }
  destruct (tool_results tcs outputs) as [|x res _] using rev_ind; [done|].
  apply Forall_app in Hall as [_ [Hm _]%Forall_cons].
  exists x. split; [|done].
  change (before ++ msg :: res ++ [x]) with (before ++ (msg :: res) ++ [x]).
  by rewrite (assoc_L (++)), last_snoc.
Qed.

(** After a turn without the progress tool, the store ends with a tool
    message. *)
Lemma reached_last a0 rounds a :
  reached a0 rounds a →
  rounds = 0 ∨ ∃ m, last (messages a) = Some m ∧ role m = "tool".
Proof.
  induction 1 as [|rounds a rounds' a' _ _ Hit]; [by left|right].
  destruct (inject_reminder_ok rounds a) as (a2 & Hpre & _).
  rewrite (iteration03_eq rounds a a2 Hpre) in Hit.
  destruct (turn03_cases rounds a2) as (res & a3 & Hturn & _ & Hres).
  cbn zeta in *. rewrite Hit in Hturn. injection Hturn as <- <-.
  destruct Hres as [Happ Hout]. unfold turn_appends in Happ.
  destruct (rs_tool_calls _) as [|tc tcs]; [done|].
  destruct Happ as (outputs & Hlen & ->).
  by apply tool_results_last.
Qed.

(** At the head of the loop body the reminder test never holds: the
    counter is 0 when the store ends with the user's message, and the store
    ends with a tool message when the counter is not 0. *)
Lemma reminder_never_injected a0 rounds a :
  reached a0 rounds a → inject_reminder rounds a = (Ok tt, a).
Proof.
  intros [->|(m & Hlast & Hrole)]%reached_last; unfold inject_reminder, modify.
  - destruct (last _); [|done]. by rewrite (bool_decide_eq_false_2 (3 ≤ 0)%nat) by lia.
  - rewrite Hlast, (bool_decide_eq_false_2 (role m = "user")) by (by rewrite Hrole).
    by rewrite andb_false_r.
Qed.

Lemma turns_reached a0 n rounds a :
  reached a0 rounds a → reached a0 (turns n rounds a).1 (turns n rounds a).2.
Proof.
  revert rounds a. induction n as [|n IH]; intros rounds a Ha; [done|].
  cbn [turns]. destruct (iteration rounds a) as [[[[] rounds']| |] a'] eqn:Hit; try done.
  apply IH. by eapply reached_next.
Qed.

End Facts.
End Loop03.

(** C7: the reminder is never sent. Three turns running call [bash] and
    not [todo]; the fourth request goes out while the counter is 3, and the
    user's next line opens a new call of the loop: none of the five
    requests carries the reminder, and the next line goes out as typed. *)
Theorem reminder_not_sent :
  let E := Stale.externals in
  let '(r, a) := S03.session 10 Stale.queries (Script.start []) in
  r = Ok tt ∧
  length (requests (world a)) = 5 ∧
  reminded (requests (world a)) = false ∧
  (rq ← requests (world a) !! 4; last (rq_messages rq))
    = Some (user_message "anything else?").
Proof. vm_compute. repeat split. Qed.

(** The counter does reach 3 in that session, with a tool message at the
    end of the store. *)
Example stale_counter_reaches_3 :
  let E := Stale.externals in
  let a0 := Script.start [user_message "list the files"] in
  let '(rounds, a) := turns 3 0 a0 in
  rounds = 3 ∧ role <$> last (messages a) = Some "tool" ∧
  reached a0 rounds a ∧ S03.inject_reminder rounds a = (Ok tt, a).
Proof.
  intros E a0.
  pose proof (Loop03.turns_reached a0 3 0 a0 (reached_start a0)) as Hreached.
  destruct (turns 3 0 a0) as [rounds a] eqn:Hturns.
  split_and!; [| |done|by eapply Loop03.reminder_never_injected].
  - by assert ((turns 3 0 a0).1 = 3) as <- by (vm_compute; reflexivity); rewrite Hturns.
  - assert (role <$> last (messages (turns 3 0 a0).2) = Some "tool") as Hrole
      by (vm_compute; reflexivity).
    by rewrite Hturns in Hrole.
Qed.

(** C1, as the claim states it, fails: where the transcript of the current
    second exists, the compaction replaces its content and no file is new. *)
Lemma compaction_overwrites :
  let E := Script.externals [] [] 100 in
  let a := {| messages := [user_message "hi"]; world := Cases.world_with_transcript |} in
  ¬ wrote_new_file (files (world a)) (files (world (S06.compact_store a).2)).
Proof.
  intros E a (p & Hnone & _ & Hsame).
  set (p0 := ["work"; ".transcripts"; "transcript_100.jsonl"]).
  destruct (decide (p = p0)) as [->|Hne].
  - vm_compute in Hnone. discriminate.
  - specialize (Hsame p0 (not_eq_sym Hne)). vm_compute in Hsame. discriminate.
Qed.

(** ** The sandbox *)

Section Sandbox.
Context `{Externals}.

(** C9. If the path resolves outside the working directory, each of the
    three file tools, in every variant, results in the path-escape error
    and leaves the world as it is: nothing is read or written. *)
Theorem escape_refused (v : variant) (p : string) (resolved : path) (w : World)
    (limit : option Z) (text old_text new_text : string) :
  resolve (joinpath WORKDIR p) = inr resolved →
  is_relative_to resolved WORKDIR = false →
  run_read v p limit w = (Ok ("错误：" +:+ escape_text v p), w) ∧
  run_write v p text w = (Ok ("错误：" +:+ escape_text v p), w) ∧
  run_edit v p old_text new_text w = (Ok ("错误：" +:+ escape_text v p), w).
Proof.
  intros Hresolve Hout.
  unfold run_read, run_write, run_edit, safe_path. rewrite Hresolve, Hout.
  by split_and!.
Qed.

(** Inside the working directory the tools go on to the file. *)
Lemma safe_path_inside (v : variant) (p : string) (resolved : path) (w : World) :
  resolve (joinpath WORKDIR p) = inr resolved →
  is_relative_to resolved WORKDIR = true →
  safe_path v p w = (Ok resolved, w).
Proof. intros Hresolve Hin. unfold safe_path. by rewrite Hresolve, Hin. Qed.

End Sandbox.

(** [../../etc/passwd] against the working directory [/work]. *)
Lemma escape_refused_witness :
  let E := Script.externals [] [] 0 in
  let w := Cases.world_with_transcript in
  run_read S06 "../../etc/passwd" None w
    = (Ok "错误：路径超出工作区: ../../etc/passwd", w) ∧
  run_write S02 "../../etc/passwd" "root::0:0" w
    = (Ok "错误：路径超出工作区：../../etc/passwd", w) ∧
  run_edit S06 "../../etc/passwd" "x" "y" w
    = (Ok "错误：路径超出工作区: ../../etc/passwd", w).
Proof.
  intros E w.
  destruct (escape_refused S06 "../../etc/passwd" ["etc"; "passwd"] w None "" "x" "y")
    as (Hread & _ & Hedit); [vm_compute; reflexivity..|].
  destruct (escape_refused S02 "../../etc/passwd" ["etc"; "passwd"] w None "root::0:0" "" "")
    as (_ & Hwrite & _); [vm_compute; reflexivity..|].
  split_and!; assumption.
Defined.

(** ** The subagent of s04 *)

Module Loop04.
Import S04.
Section Facts.
Context `{Externals}.

(** A call in s04 ends with a text or with what the handler raises, and
    sends nothing to the model. *)
Lemma call_handler_tame tc args : tame outside_files (call_handler tc args).
Proof.
  unfold call_handler, TOOL_HANDLERS.
  destruct (base_handlers S04 (tc_name tc)) as [h|] eqn:Hh; [|auto with tame].
  apply tame_bind; [apply as_kwargs_tame|]. intros kw. eauto using base_handlers_tame.
Qed.

Lemma dispatch04_tame tc : tame outside_files (dispatch tc).
Proof.
  unfold dispatch. apply tame_bind; [apply of_sum_tame|].
  intros args. apply call_handler_tame.
Qed.

Lemma run_child_calls_tame tcs : tame (outside_files ∘ world) (run_child_calls tcs).
Proof.
  induction tcs as [|tc tcs IH]; cbn [run_child_calls]; [auto with tame|].
  apply tame_bind; [apply tame_lift, dispatch04_tame|]. intros output.
  apply tame_bind; [by apply tame_modify|]. done.
Qed.

(** The loop of the child: it ends within [n] requests, each of them the
    child's; what it returns is the text of the reply to the last one. *)
Lemma child_loop_spec n last_text a :
  ∃ r a' new,
    child_loop n last_text a = (r, a') ∧
    r ≠ OutOfFuel ∧
    requests (world a') = requests (world a) ++ new ∧
    (length new ≤ n)%nat ∧
    Forall child_shaped new ∧
    ((0 < n)%nat → head new = Some (child_request (messages a))) ∧
    match r with
    | Ok text =>
        text = match new with
               | [] => last_text
               | _ => PyStr.strip (content_or_empty (chat (requests (world a'))))
               end
    | _ => True
    end.
Proof.
  revert last_text a. induction n as [|n IH]; intros last_text a.
  { exists (Ok last_text), a, []. rewrite app_nil_r. split_and!; [done..|lia|done]. }
  cbn [child_loop].
  unfold mbind at 1, M_bind at 1, get_messages at 1.
  unfold mbind at 1, M_bind at 1, lift at 1, chat_create at 1.
  cbn [world messages requests].
  set (rq := child_request (messages a)).
  set (reply := chat (requests (world a) ++ [rq])).
  unfold mbind at 1, M_bind at 1, append at 1, modify at 1.
  cbn [world messages].
  destruct (rs_tool_calls reply) as [|tc tcs] eqn:Hcalls.
  - eexists _, _, [rq]. split_and!; [done..|simpl; lia| |done|done].
    by repeat constructor; exists (messages a).
  - unfold mbind at 1, M_bind at 1.
    set (a1 := {| messages := _; world := _ |}).
    destruct (run_child_calls_tame (tc :: tcs) a1) as [Hobs Hend].
    destruct (run_child_calls (tc :: tcs) a1) as [[[]|e|] a2] eqn:Hrun; [| |done].
    + destruct (IH (PyStr.strip (content_or_empty reply)) a2)
        as (r & a' & new & -> & Hr & Hlog & Hlen & Hshape & _ & Htext).
      assert (requests (world a2) = requests (world a) ++ [rq]) as Hlog2.
      { simpl in Hobs. by injection Hobs. }
      exists r, a', (rq :: new). split_and!; [done..| |simpl; lia| |done|].
      * by rewrite Hlog, Hlog2, <-app_assoc.
      * constructor; [by exists (messages a)|done].
      * destruct r as [text| |]; [|done..].
        destruct new as [|? ?]; [|done].
        by rewrite Htext, Hlog, Hlog2, app_nil_r.
    + exists (Raise e), a2, [rq]. split_and!; [done..| |simpl; lia| |done|done].
      * simpl in Hobs. by injection Hobs.
      * by repeat constructor; exists (messages a).
Qed.

Lemma append_inj_l (s a b : string) : s +:+ a = s +:+ b → a = b.
Proof. induction s as [|c s IH]; simpl; [done|]. intros [= ?]. auto. Qed.

Lemma child_system_differs : SUBAGENT_SYSTEM ≠ SYSTEM.
Proof.
  unfold SUBAGENT_SYSTEM, SYSTEM. intros Heq.
  apply append_inj_l, append_inj_l in Heq. discriminate.
Qed.

(** C10, as amended. The child starts from a store that holds the task
    prompt as its one user message, under its own system prompt and with
    the basic tools, among which the delegation tool is not; it sends at
    least one and at most 30 requests and then ends; when no handler
    raises, it returns the stripped text of the reply to its last request,
    or the placeholder whenever that text is empty, and this string alone
    goes to the parent. *)
Theorem run_subagent_spec (prompt : string) (w : World) :
  ∃ r a new,
    child prompt w = (r, a) ∧
    run_subagent prompt w = (r, world a) ∧
    r ≠ OutOfFuel ∧
    requests (world a) = requests w ++ new ∧
    (1 ≤ length new)%nat ∧ (length new ≤ 30)%nat ∧
    head new = Some (child_request [user_message prompt]) ∧
    Forall child_shaped new ∧
    ("task" ∉ CHILD_TOOLS) ∧ TOOL_HANDLERS "task" = None ∧
    SUBAGENT_SYSTEM ≠ SYSTEM ∧
    match r with
    | Ok text =>
        let last_text := PyStr.strip (content_or_empty (chat (requests (world a)))) in
        text = if decide (last_text = "") then no_summary else last_text
    | _ => True
    end.
Proof.
  unfold run_subagent, child.
  set (a0 := {| messages := [user_message prompt]; world := w |}).
  destruct (child_loop_spec 30 "" a0)
    as (r & a & new & Hloop & Hr & Hlog & Hlen & Hshape & Hhead & Htext).
  specialize (Hhead ltac:(lia)).
  assert (1 ≤ length new)%nat as Hone by (destruct new; simpl in *; [done|lia]).
  assert ("task" ∉ CHILD_TOOLS) as Hchild.
  { apply (bool_decide_eq_true_1 _). vm_compute. reflexivity. }
  unfold mbind, M_bind. rewrite Hloop.
  destruct r as [text| |]; [| |done].
  - eexists _, a, new. split_and!; eauto using child_system_differs.
    cbn zeta. destruct new; [simpl in Hone; lia|]. by rewrite Htext.
  - eexists _, a, new. split_and!; eauto using child_system_differs.
Qed.

End Facts.
End Loop04.

(** C10, as the claim states it, fails: the child reported text in its
    first reply and ended on an empty one; it returns the placeholder, which
    is neither the last text observed nor reserved for a child that never
    produced text. *)
Lemma fallback_despite_text :
  let E := Sub.externals Sub.quiet_end in
  let returned := (S04.run_subagent "survey the files" Script.empty_world).1 in
  Sub.texts Sub.quiet_end = ["Looking at the files."; ""] ∧
  returned = Ok S04.no_summary ∧
  returned ≠ Ok (Sub.spec_summary (Sub.texts Sub.quiet_end)) ∧
  returned ≠ Ok (Sub.spec_summary_nonempty (Sub.texts Sub.quiet_end)).
Proof. vm_compute. split_and!; (reflexivity || discriminate). Qed.

(** C6: in s04 what a handler raises ends the loop. The payload of the
    call is not JSON, so [bash] is called without arguments and raises
    [KeyError]: the loop of s04 stops with that exception, the call left
    without a result in the store; the loop of s06, on the same reply,
    appends the error as the result and goes on to the final answer. *)
Theorem handler_error_ends_s04 :
  let E := Sub.externals Sub.malformed in
  let call := ToolCall "call_1" "bash" "{" in
  let '(r4, a4) := S04.agent_loop 5 (Script.start [user_message "go"]) in
  let '(r6, a6) := S06.agent_loop 5 (Script.start [user_message "go"]) in
  r4 = Raise (KeyError "command") ∧
  messages a4 = [user_message "go"; assistant_calls_message "" [call]] ∧
  r6 = Ok tt ∧
  messages a6 = [user_message "go"; assistant_calls_message "" [call];
                 tool_message "call_1" "错误：'command'";
                 assistant_message "done"].
Proof. vm_compute. by split_and!. Qed.

(** The child of s04 stops in the same way, and the exception reaches the
    parent's loop. *)
Example handler_error_ends_child :
  let E := Sub.externals Sub.malformed in
  (S04.run_subagent "go" Script.empty_world).1 = Raise (KeyError "command").
Proof. vm_compute. reflexivity. Qed.

(** ** One result per call *)

Section Turns.
Context `{Externals}.

(** The results carry the ids of the calls, in the order of the calls. *)
Lemma tool_results_ids (tcs : list tool_call) (outputs : list string) :
  length outputs = length tcs →
  tool_call_id <$> tool_results tcs outputs = Some ∘ tc_id <$> tcs ∧
  role <$> tool_results tcs outputs = replicate (length tcs) "tool".
Proof.
  unfold tool_results. revert outputs.
  induction tcs as [|tc tcs IH]; intros [|output outputs] Hlen; try done.
  destruct (IH outputs) as [IHid IHrole]; [by injection Hlen|].
  cbn [zip_with fmap list_fmap length replicate]. cbn [fmap] in IHid, IHrole.
  by rewrite IHid, IHrole.
Qed.

(** One result per call, where the outside world lets the loop go on.
    In the loops of s06 and of s03, from the request on: where the
    terminal shows every line and [json.loads] reads the
    payload of every call or rejects it with [JSONDecodeError] (in s06 the
    payload of a call to [compact] is not read at all), a reply with calls
    has the store grow by the assistant message that records the calls as
    they came and then by one tool message per call, in the order of the
    calls and with their ids, and a reply without calls by the final
    assistant message; while this is appended no request goes to the
    model: the log holds the request of this turn as its last entry.  In
    s06 the manual compaction, if a call asked for it, comes after. *)
Theorem results_follow_calls (a : Agent) (rounds : nat) :
  (∀ line, terminal line = None) →
  (let rq := S06.model_request (messages a) in
   let r := chat (requests (world a) ++ [rq]) in
   Forall (λ tc, tc_name tc = "compact" ∨ parsed tc) (rs_tool_calls r) →
   ∃ a3,
     turn_appends PyStr.strip (messages a) (messages a3) r ∧
     requests (world a3) = requests (world a) ++ [rq] ∧
     S06.turn a =
       match rs_tool_calls r with
       | [] => (Ok Return, a3)
       | tcs =>
           if calls_tool "compact" tcs
           then (lift (print "[手动压缩]") ≫= λ _,
                 S06.compact_store ≫= λ _, mret Continue) a3
           else (Ok Continue, a3)
       end) ∧
  (let rq := S03.model_request (messages a) in
   let r := chat (requests (world a) ++ [rq]) in
   Forall parsed (rs_tool_calls r) →
   ∃ a3,
     turn_appends PyStr.strip (messages a) (messages a3) r ∧
     requests (world a3) = requests (world a) ++ [rq] ∧
     S03.turn rounds a =
       (Ok match rs_tool_calls r with
           | [] => (Return, rounds)
           | tcs => (Continue, if calls_tool "todo" tcs then 0 else S rounds)
           end, a3)).
Proof.
  intros Hshow. split.
  - intros rq r Hparsed. by apply Loop06.turn06_spec.
  - intros rq r Hparsed.
    destruct (Loop03.turn03_cases rounds a) as (res & a3 & Hturn & Hrq & Hres).
    fold rq r in Hrq, Hres. rewrite Hturn. destruct res as [out|e|]; [| |done].
    + destruct Hres as [Happ ->]. by exists a3.
    + exfalso. destruct Hres as [(tc & Hin & Hraise)|[line Hline]].
      * rewrite Forall_forall in Hparsed. destruct (Hparsed tc Hin) as [args Hargs].
        by rewrite Hargs in Hraise.
      * by rewrite Hshow in Hline.
Qed.

End Turns.

(** A reply that calls [bash] with a payload that is JSON. *)
Lemma results_follow_calls_witness :
  let E := Stale.externals in
  let a := Script.start [user_message "list the files"] in
  (∃ a3, S06.turn a = (Ok Continue, a3)) ∧
  (∃ a3, S03.turn 0 a = (Ok (Continue, 1), a3)).
Proof.
  intros E a.
  assert (Forall parsed [ToolCall "call_1" "bash" Stale.ls_payload]) as Hparsed.
  { repeat constructor. exists (PDict {[ "command" := PStr "ls" ]}). reflexivity. }
  destruct (results_follow_calls a 0) as [H6 H3]; [reflexivity|].
  split.
  - destruct H6 as (a3 & _ & _ & Hturn).
    + apply (Forall_impl _ _ _ Hparsed). by right.
    + by exists a3.
  - destruct H3 as (a3 & _ & _ & Hturn); [exact Hparsed|]. by exists a3.
Defined.

(** C3: a call can be left without its result. The payload of the call
    is nested beyond the recursion limit, so [json.loads] raises
    [RecursionError] and not the [JSONDecodeError] the loops catch: the
    loops of s06 and of s03 end with that exception, after the assistant
    message that records the call and before any tool message for it. *)
Theorem no_result_for_unread_payload :
  let call := ToolCall "call_1" "bash" (Files.rep 2000 "[") in
  let E := Script.externals [ {| rs_content := None; rs_tool_calls := [call] |} ] [] 0 in
  let '(r6, a6) := S06.agent_loop 5 (Script.start [user_message "go"]) in
  let '(r3, a3) := S03.agent_loop 5 (Script.start [user_message "go"]) in
  (∃ msg, r6 = Raise (RecursionError msg)) ∧
  messages a6 = [user_message "go"; assistant_calls_message "" [call]] ∧
  (∃ msg, r3 = Raise (RecursionError msg)) ∧
  messages a3 = [user_message "go"; assistant_calls_message "" [call]].
Proof. vm_compute. split_and!; [by eexists|done|by eexists|done]. Qed.

(** ** The code on small inputs *)

Example len_counts_code_points : PyStr.len "[此前：已使用 bash]" = 13%N.
Proof. reflexivity. Qed.

Example strip_keeps_inner_space : PyStr.strip "  build 完成  " = "build 完成".
Proof. vm_compute. reflexivity. Qed.

Example splitlines_boundaries :
  splitlines ("a" +:+ cr +:+ nl +:+ "b" +:+ nl +:+ nl +:+ "c") = ["a"; "b"; ""; "c"].
Proof. vm_compute. reflexivity. Qed.

(** Five of ten lines, and the notice. *)
Example read_with_limit :
  let E := Script.externals [] [] 0 in
  run_read S06 "a.txt" (Some 5%Z) Files.with_a_txt
  = (Ok (join nl ["1"; "2"; "3"; "4"; "5"; "...（还有 5 行）"]), Files.with_a_txt).
Proof. vm_compute. reflexivity. Qed.

(** The text to replace is absent: the file stays. *)
Example edit_not_found :
  let E := Script.externals [] [] 0 in
  run_edit S06 "a.txt" "eleven" "11" Files.with_a_txt
  = (Ok "错误：在 a.txt 中未找到指定文本", Files.with_a_txt).
Proof. vm_compute. reflexivity. Qed.

(** The first occurrence is replaced, in a file below the root. *)
Example edit_first_occurrence :
  let E := Script.externals [] [] 0 in
  files (run_edit S06 "./a.txt" "1" "one" Files.with_a_txt).2 !! ["work"; "a.txt"]
  = Some (join nl ["one"; "2"; "3"; "4"; "5"; "6"; "7"; "8"; "9"; "10"] +:+ nl).
Proof. vm_compute. reflexivity. Qed.

(** Tier 1 defers tier 2: the estimate of the store as it comes is above
    the threshold, that of the micro-compacted store is not, and the hooks
    write no transcript and send no request. *)
Example tier1_defers_tier2 :
  let E := Script.externals [] [] 0 in
  let a := Script.start Files.bulky in
  (S06.THRESHOLD <? S06.estimate_tokens Files.bulky)%N = true ∧
  (S06.THRESHOLD <? S06.estimate_tokens (S06.micro_compact Files.bulky))%N = false ∧
  S06.pre_request a
  = (Ok tt, {| messages := S06.micro_compact Files.bulky; world := Script.empty_world |}).
Proof. vm_compute. by split_and!. Qed.

(** * Further properties of the code *)

(** ** Slices and replacement *)

Lemma len_take (n : N) (s : string) :
  PyStr.len (PyStr.take n s) = N.min n (PyStr.len s).
Proof.
  revert n. induction s as [|c s IH]; intros n; cbn [PyStr.take PyStr.len].
  { by rewrite N.min_0_r. }
  destruct (PyStr.is_continuation c) eqn:Hc.
  - cbn [PyStr.len]. rewrite Hc, IH. lia.
  - destruct (n =? 0)%N eqn:Hn.
    + apply N.eqb_eq in Hn. subst n. cbn [PyStr.len]. lia.
    + apply N.eqb_neq in Hn. cbn [PyStr.len]. rewrite Hc, IH. lia.
Qed.

Lemma take_nonempty (n : N) (s : string) :
  s ≠ "" → n ≠ 0%N → PyStr.take n s ≠ "".
Proof.
  intros Hs Hn. destruct s as [|c s]; [done|]. cbn [PyStr.take].
  destruct (PyStr.is_continuation c); [done|].
  destruct (n =? 0)%N eqn:Hz; [by apply N.eqb_eq in Hz|done].
Qed.

Lemma startswith_app (p s : string) : PyStr.startswith p (p +:+ s) = true.
Proof. induction p as [|c p IH]; simpl; [by destruct s|]. by rewrite decide_True. Qed.

Lemma drop_app (p s : string) : PyStr.drop (String.length p) (p +:+ s) = s.
Proof. induction p as [|c p IH]; simpl; [by destruct s|done]. Qed.

(** [str.replace(old, new, 1)] at the first occurrence: [old] starts at
    no position of [pre]. *)
Lemma replace_first_at (old new pre post : string) :
  (∀ k, (k < String.length pre)%nat →
        PyStr.startswith old (PyStr.drop k (pre +:+ old +:+ post)) = false) →
  replace_first old new (pre +:+ old +:+ post) = pre +:+ new +:+ post ∧
  PyStr.contains old (pre +:+ old +:+ post) = true.
Proof.
  induction pre as [|c pre IH]; intros Hfirst.
  - change ("" +:+ old +:+ post) with (old +:+ post).
    change ("" +:+ new +:+ post) with (new +:+ post). split.
    + destruct (old +:+ post) as [|c s] eqn:Heq.
      * destruct old; [|done]. by destruct post.
      * cbn [replace_first]. rewrite <-Heq, startswith_app, drop_app. done.
    + destruct (old +:+ post) as [|c s] eqn:Heq; simpl.
      * destruct old; [|done]. done.
      * rewrite <-Heq, startswith_app. done.
  - pose proof (Hfirst 0%nat ltac:(simpl; lia)) as H0. cbn [PyStr.drop] in H0.
    destruct IH as [IH1 IH2].
    { intros k Hk. apply (Hfirst (S k)). simpl. lia. }
    change (String c pre +:+ old +:+ post) with (String c (pre +:+ old +:+ post)) in *.
    split.
    + cbn [replace_first]. rewrite H0, IH1. done.
    + cbn [PyStr.contains]. rewrite IH2. by rewrite orb_true_r.
Qed.

Lemma append_length (a b : string) :
  String.length (a +:+ b) = (String.length a + String.length b)%nat.
Proof. induction a as [|c a IH]; simpl; [done|]. by rewrite IH. Qed.

Lemma append_inj_r (a b s : string) : a +:+ s = b +:+ s → a = b.
Proof.
  revert b. induction a as [|c a IH]; intros [|d b] Heq; try done.
  - apply (f_equal String.length) in Heq. rewrite !append_length in Heq.
    simpl in Heq. lia.
  - apply (f_equal String.length) in Heq. rewrite !append_length in Heq.
    simpl in Heq. lia.
  - simpl in Heq. injection Heq as -> Heq. f_equal. auto.
Qed.

(** ** The shell tool *)

Section Bash.
Context `{Externals}.

Lemma len_fixed_texts (v : variant) :
  (PyStr.len "错误：已拦截危险命令" ≤ 50000)%N ∧
  (PyStr.len "（无输出）" ≤ 50000)%N ∧
  (PyStr.len (match v with
              | S02 => "错误：执行超时（120 秒）"
              | _ => "错误：超时（120 秒）"
              end) ≤ 50000)%N.
Proof. destruct v; vm_compute; split_and!; discriminate. Qed.

(** X1. Whatever the command, [run_bash] returns a text that is not
    empty and has at most 50000 characters, and leaves the log of
    requests, the clock and the progress list as they are, unless
    [subprocess.run] itself raises something other than the timeout
    (output that cannot be decoded, a NUL in the command): that
    exception, and no other, leaves [run_bash]. *)
Theorem run_bash_result (v : variant) (command : string) (w : World) :
  match run_bash v command w with
  | (Ok output, w') =>
      output ≠ "" ∧ (PyStr.len output ≤ 50000)%N ∧ outside_files w' = outside_files w
  | (Raise e, w') => ∃ d, shell command (disk_of w) = (RunRaises e, d)
  | (OutOfFuel, _) => False
  end.
Proof.
  destruct (len_fixed_texts v) as (Hblocked & Hnone & Htimeout).
  unfold run_bash. destruct (existsb _ _).
  { split_and!; [discriminate|exact Hblocked|reflexivity]. }
  unfold run_shell. destruct (shell command (disk_of w)) as [[output| |e] d].
  - case_decide as Hout.
    + split_and!; [discriminate|exact Hnone|reflexivity].
    + split_and!; [by apply take_nonempty| |reflexivity].
      rewrite len_take. lia.
  - split_and!; [by destruct v|exact Htimeout|reflexivity].
  - by exists d.
Qed.

(** X2. A command that contains one of the five banned fragments, at any
    position, is not handed to the shell: the result is the refusal and
    the world is as before. *)
Theorem run_bash_blocked (v : variant) (command d : string) (w : World) :
  d ∈ dangerous → PyStr.contains d command = true →
  run_bash v command w = (Ok "错误：已拦截危险命令", w).
Proof.
  intros Hd Hin. unfold run_bash.
  assert (existsb (λ d, PyStr.contains d command) dangerous = true) as ->; [|done].
  apply existsb_exists. exists d. split; [by apply list_elem_of_In|done].
Qed.

End Bash.

(** [sudo] in the middle of a pipeline. *)
Lemma run_bash_blocked_witness :
  let E := Script.externals [] [] 0 in
  run_bash S06 "echo x | sudo tee /etc/hosts" Files.with_a_txt
  = (Ok "错误：已拦截危险命令", Files.with_a_txt).
Proof.
  intros E. apply (run_bash_blocked S06 _ "sudo").
  - apply (bool_decide_eq_true_1 _). vm_compute. reflexivity.
  - vm_compute. reflexivity.
Defined.

(** ** The file tools *)

Section FileTools.
Context `{Externals}.

(** [safe_path] either raises or returns a path below the working
    directory; it leaves the world alone. *)
Lemma safe_path_cases (v : variant) (p : string) (w : World) :
  (∃ e, safe_path v p w = (Raise e, w)) ∨
  (∃ path, safe_path v p w = (Ok path, w) ∧ WORKDIR `prefix_of` path).
Proof.
  unfold safe_path. destruct (resolve _) as [e|resolved]; [left; by eexists|].
  destruct (is_relative_to resolved WORKDIR) eqn:Hrel; simpl.
  - right. eexists. split; [done|]. by apply bool_decide_eq_true_1 in Hrel.
  - left. by eexists.
Qed.

(** Reading ends with the text or with an exception, and changes
    nothing. *)
Lemma read_text_keeps (p : path) (w : World) :
  ∃ r, read_text p w = (r, w) ∧ r ≠ OutOfFuel.
Proof.
  unfold read_text. destruct (refuses w Reading p); [by eexists|].
  destruct (is_dir w p); [by eexists|]. destruct (files w !! p); by eexists.
Qed.

(** Making directories changes no file. *)
Lemma mkdir_parents_files (fuel : nat) (d : path) (w : World) :
  files (mkdir_parents fuel d w).2 = files w.
Proof.
  revert d w. induction fuel as [|fuel IH]; intros d w; cbn [mkdir_parents];
    (destruct (is_dir w d); [done|]); (destruct (is_file w d); [done|]);
    unfold os_mkdir;
    (destruct (is_dir w (removelast d)); [by destruct (refuses w Making d)|]);
    (destruct (below_file w d); [done|]); [done|].
  unfold mbind, M_bind. specialize (IH (removelast d) w).
  destruct (mkdir_parents fuel (removelast d) w) as [[[]|e|] w1]; [|done..].
  cbn [snd] in *. by destruct (refuses w1 Making d).
Qed.

Lemma mkdir_parents_there (fuel : nat) (d : path) (w : World) :
  is_dir w d = true → mkdir_parents fuel d w = (Ok tt, w).
Proof. intros Hd. destruct fuel; cbn [mkdir_parents]; by rewrite Hd. Qed.

(** A write touches no other file, whether it goes through or not. *)
Lemma write_text_other (p q : path) (text : string) (w : World) :
  q ≠ p → files (write_text p text w).2 !! q = files w !! q.
Proof.
  intros Hq. unfold write_text, mbind, M_bind, modify.
  pose proof (open_w_cases p w) as Ho. destruct (_ && _).
  - rewrite Ho. cbn. by rewrite !lookup_insert_ne.
  - destruct Ho as [e ->]. done.
Qed.

Lemma write_text_locale_other (p q : path) (text : string) (w : World) :
  q ≠ p → files (write_text_locale p text w).2 !! q = files w !! q.
Proof.
  intros Hq. unfold write_text_locale, mbind, M_bind, modify, of_sum.
  pose proof (open_w_cases p w) as Ho. destruct (_ && _).
  - rewrite Ho. destruct (encode_locale text); cbn; by rewrite !lookup_insert_ne.
  - destruct Ho as [e ->]. done.
Qed.

Lemma write_edited_other (v : variant) (p q : path) (text : string) (w : World) :
  q ≠ p → files (write_edited v p text w).2 !! q = files w !! q.
Proof.
  intros Hq. unfold write_edited.
  destruct v; auto using write_text_other, write_text_locale_other.
Qed.

(** The file tools end with a text, whatever the file system does. *)
Lemma run_read_ok (v : variant) (p : string) (limit : option Z) (w : World) :
  ∃ output w', run_read v p limit w = (Ok output, w').
Proof.
  unfold run_read, try_except. unfold mbind, M_bind.
  destruct (safe_path_cases v p w) as [[e ->]|(path & -> & _)]; [by eexists _, _|].
  destruct (read_text_keeps path w) as (r & -> & Hr).
  destruct r; [by eexists _, _..|done].
Qed.

Lemma run_write_ok (v : variant) (p text : string) (w : World) :
  ∃ output w', run_write v p text w = (Ok output, w').
Proof.
  unfold run_write, try_except. unfold mbind, M_bind.
  destruct (safe_path_cases v p w) as [[e ->]|(path & -> & _)]; [by eexists _, _|].
  destruct (make_parent_tame path w) as [_ Hmk].
  destruct (make_parent path w) as [[[]|e|] w1]; [|by eexists _, _|done].
  destruct (write_text_tame path text w1) as [_ Hw].
  destruct (write_text path text w1) as [[[]|e|] w2]; [by eexists _, _..|done].
Qed.

Lemma run_edit_ok (v : variant) (p old_text new_text : string) (w : World) :
  ∃ output w', run_edit v p old_text new_text w = (Ok output, w').
Proof.
  unfold run_edit, try_except. unfold mbind, M_bind.
  destruct (safe_path_cases v p w) as [[e ->]|(path & -> & _)]; [by eexists _, _|].
  destruct (read_text_keeps path w) as (r & -> & Hr).
  destruct r as [content|e|]; [|by eexists _, _|done].
  destruct (negb _); [by eexists _, _|].
  destruct (write_edited_tame v path (replace_first old_text new_text content) w)
    as [_ Hw].
  destruct (write_edited v path _ w) as [[[]|e|] w2]; [by eexists _, _..|done].
Qed.

(** X3. [run_read] never raises and never changes the world, whatever the
    path and the limit: a missing file, a directory, an escaping path and
    a path that does not resolve all end as a text. *)
Theorem run_read_pure (v : variant) (p : string) (limit : option Z) (w : World) :
  ∃ output, run_read v p limit w = (Ok output, w).
Proof.
  unfold run_read, try_except. unfold mbind, M_bind.
  destruct (safe_path_cases v p w) as [[e ->]|(path & -> & _)]; [by eexists|].
  destruct (read_text_keeps path w) as (r & -> & Hr).
  destruct r; [by eexists..|done].
Qed.

(** X4. Whatever [run_write] and [run_edit] are called with, a file that
    is not below the working directory has the content it had before. *)
Theorem writes_confined (v : variant) (p text old_text new_text : string)
    (w : World) (q : path) :
  ¬ WORKDIR `prefix_of` q →
  files (run_write v p text w).2 !! q = files w !! q ∧
  files (run_edit v p old_text new_text w).2 !! q = files w !! q.
Proof.
  intros Hq. unfold run_write, run_edit, try_except. unfold mbind, M_bind.
  destruct (safe_path_cases v p w) as [[e ->]|(path & -> & Hpath)]; [done|].
  assert (q ≠ path) as Hne by (by intros ->).
  split.
  - unfold make_parent.
    pose proof (mkdir_parents_files (length path) (removelast path) w) as Hmk.
    destruct (mkdir_parents _ _ w) as [[[]|e|] w1]; cbn [snd] in Hmk;
      [|by rewrite <-Hmk..].
    pose proof (write_text_other path q text w1 Hne) as Hw.
    destruct (write_text path text w1) as [[[]|e|] w2]; simpl in *; congruence.
  - destruct (read_text_keeps path w) as (r & -> & Hr).
    destruct r as [content|e|]; [|done..].
    destruct (negb _); [done|].
    pose proof (write_edited_other v path q
                  (replace_first old_text new_text content) w Hne) as Hw.
    by destruct (write_edited v path _ w) as [[[]|e|] w2].
Qed.

(** X5. Where the path resolves to a file place inside the working
    directory whose parent is a directory, which is no directory itself
    and which the system lets the process write and read, [run_write]
    stores the encoded text there, and [run_read] of the same path
    without a limit then gives the lines of what the file holds, decoded,
    joined by line feeds and cut at 50000 characters, and changes
    nothing. *)
Theorem write_then_read (v : variant) (p text : string) (path : path) (w : World) :
  resolve (joinpath WORKDIR p) = inr path →
  is_relative_to path WORKDIR = true →
  is_dir w (removelast path) = true →
  is_dir w path = false →
  refuses w Writing path = None →
  refuses w Reading path = None →
  let w1 := (run_write v p text w).2 in
  files w1 = <[path := encode text]> (files w) ∧
  run_read v p None w1
  = (Ok (PyStr.take 50000%N
           (join nl (splitlines (universal_newlines (decode (encode text)))))), w1).
Proof.
  intros Hr Hin Hparent Hfile Hwrite Hread.
  assert (∃ output, run_write v p text w
            = (Ok output, set_files (<[path := encode text]> (files w)) w)) as [output Hw].
  { unfold run_write, try_except. unfold mbind, M_bind.
    rewrite (safe_path_inside v p path) by done.
    unfold make_parent. rewrite mkdir_parents_there by done.
    unfold write_text, mbind, M_bind, modify.
    pose proof (open_w_cases path w) as Ho. unfold allowed in Ho.
    rewrite Hwrite, Hfile, Hparent in Ho. rewrite Ho. cbn [files set_files].
    rewrite insert_insert_eq. by eexists. }
  rewrite Hw. cbn [snd]. split; [done|].
  unfold run_read, try_except. unfold mbind, M_bind.
  rewrite (safe_path_inside v p path) by done.
  unfold read_text. cbn [files refuses set_files]. rewrite Hread.
  change (is_dir (set_files _ w) path) with (is_dir w path). rewrite Hfile.
  by rewrite lookup_insert_eq.
Qed.

(** X6. [run_edit] of a file inside the working directory that the
    process can read and that, read as text, does not contain the text to
    replace results in an error text and leaves the world, the file
    included, as it is. *)
Theorem run_edit_not_found (v : variant) (p old_text new_text : string)
    (path : path) (bytes : string) (w : World) :
  resolve (joinpath WORKDIR p) = inr path →
  is_relative_to path WORKDIR = true →
  files w !! path = Some bytes →
  is_dir w path = false →
  refuses w Reading path = None →
  PyStr.contains old_text (universal_newlines (decode bytes)) = false →
  ∃ output, run_edit v p old_text new_text w = (Ok output, w) ∧
            PyStr.startswith "错误：" output = true.
Proof.
  intros Hr Hin Hfile Hnodir Hread Habsent.
  unfold run_edit, try_except. unfold mbind, M_bind.
  rewrite (safe_path_inside v p path) by done.
  unfold read_text. rewrite Hread, Hnodir, Hfile, Habsent. cbn [negb].
  eexists. split; [done|]. unfold not_found_text. by destruct v.
Qed.

(** X7. [run_edit] replaces the first occurrence of the text and no
    other: if the file, read as text, is [pre ++ old_text ++ post] and
    [old_text] starts at no position of [pre], and the file can be read
    and written, it holds the encoding of [pre ++ new_text ++ post]
    afterwards, later occurrences in [post] included as they were, and
    nothing else of the world changes. *)
Theorem run_edit_first (v : variant) (p old_text new_text : string)
    (path : path) (bytes pre post stored : string) (w : World) :
  resolve (joinpath WORKDIR p) = inr path →
  is_relative_to path WORKDIR = true →
  files w !! path = Some bytes →
  is_dir w path = false →
  is_dir w (removelast path) = true →
  refuses w Reading path = None →
  refuses w Writing path = None →
  universal_newlines (decode bytes) = pre +:+ old_text +:+ post →
  (∀ k, (k < String.length pre)%nat →
        PyStr.startswith old_text (PyStr.drop k (pre +:+ old_text +:+ post)) = false) →
  edited_bytes v (pre +:+ new_text +:+ post) = inr stored →
  run_edit v p old_text new_text w
  = (Ok ("已编辑 " +:+ p), set_files (<[path := stored]> (files w)) w).
Proof.
  intros Hr Hin Hfile Hnodir Hparent Hread Hwrite Htext Hfirst Hstored.
  unfold run_edit, try_except. unfold mbind, M_bind.
  rewrite (safe_path_inside v p path) by done.
  unfold read_text. rewrite Hread, Hnodir, Hfile, Htext.
  destruct (replace_first_at old_text new_text pre post Hfirst) as [-> ->].
  cbn [negb].
  pose proof (open_w_cases path w) as Ho. unfold allowed in Ho.
  rewrite Hwrite, Hnodir, Hparent in Ho. cbn [negb andb] in Ho.
  unfold edited_bytes in Hstored. unfold write_edited.
  destruct v; unfold write_text, write_text_locale, mbind, M_bind, modify, of_sum;
    rewrite Ho; try rewrite Hstored; try injection Hstored as <-;
    cbn beta iota; unfold mret, M_ret; cbn [files set_files];
    by rewrite insert_insert_eq.
Qed.

End FileTools.

(** A write and an edit of [/work/a.txt], seen from [/etc/passwd]. *)
Lemma writes_confined_witness :
  let E := Script.externals [] [] 0 in
  let w := Files.with_a_txt in
  files (run_write S06 "a.txt" "root::0:0" w).2 !! ["etc"; "passwd"]
    = files w !! ["etc"; "passwd"] ∧
  files (run_edit S06 "a.txt" "1" "one" w).2 !! ["etc"; "passwd"]
    = files w !! ["etc"; "passwd"].
Proof.
  intros E w.
  apply (writes_confined S06 "a.txt" "root::0:0" "1" "one" w ["etc"; "passwd"]).
  apply (bool_decide_eq_false_1 _). vm_compute. reflexivity.
Defined.

(** [notes.txt] written below [/work] and read back. *)
Lemma write_then_read_witness :
  let E := Script.externals [] [] 0 in
  let w1 := (run_write S06 "notes.txt" "first" Files.with_a_txt).2 in
  files w1 = <[ ["work"; "notes.txt"] := encode "first" ]> (files Files.with_a_txt) ∧
  run_read S06 "notes.txt" None w1
  = (Ok (PyStr.take 50000%N
           (join nl (splitlines (universal_newlines (decode (encode "first")))))), w1).
Proof.
  intros E.
  apply (write_then_read S06 "notes.txt" "first" ["work"; "notes.txt"] Files.with_a_txt).
  - vm_compute. reflexivity.
  - vm_compute. reflexivity.
  - vm_compute. reflexivity.
  - vm_compute. reflexivity.
  - reflexivity.
  - reflexivity.
Defined.

(** [eleven] is not in the ten lines of [a.txt]. *)
Lemma run_edit_not_found_witness :
  let E := Script.externals [] [] 0 in
  ∃ output,
    run_edit S06 "a.txt" "eleven" "11" Files.with_a_txt = (Ok output, Files.with_a_txt) ∧
    PyStr.startswith "错误：" output = true.
Proof.
  intros E.
  apply (run_edit_not_found S06 "a.txt" "eleven" "11" ["work"; "a.txt"] Files.ten_lines).
  - vm_compute. reflexivity.
  - vm_compute. reflexivity.
  - vm_compute. reflexivity.
  - vm_compute. reflexivity.
  - reflexivity.
  - vm_compute. reflexivity.
Defined.

(** The [1] of the first line of [a.txt], not that of the tenth. *)
Lemma run_edit_first_witness :
  let E := Script.externals [] [] 0 in
  run_edit S06 "a.txt" "1" "one" Files.with_a_txt
  = (Ok "已编辑 a.txt",
     set_files (<[ ["work"; "a.txt"] := "one" +:+ PyStr.drop 1 Files.ten_lines ]>
                  (files Files.with_a_txt)) Files.with_a_txt).
Proof.
  intros E.
  apply (run_edit_first S06 "a.txt" "1" "one" ["work"; "a.txt"] Files.ten_lines ""
           (PyStr.drop 1 Files.ten_lines)).
  - vm_compute. reflexivity.
  - vm_compute. reflexivity.
  - vm_compute. reflexivity.
  - vm_compute. reflexivity.
  - vm_compute. reflexivity.
  - reflexivity.
  - reflexivity.
  - vm_compute. reflexivity.
  - intros k Hk. simpl in Hk. lia.
  - vm_compute. reflexivity.
Defined.

(** ** The progress list of s03 *)

Section TodoInvariant.
Context `{Externals}.

(** The loop over the items leaves the world alone and, when it ends,
    has added one well-formed item per submitted item. *)
Lemma validate_adds (items : list pyval) (i : nat) (validated : list todo_item)
    (count : nat) (w : World) :
  ∃ r, S03.validate i items validated count w = (r, w) ∧
    match r with
    | Ok (validated', count') =>
        ∃ new, validated' = validated ++ new ∧ length new = length items ∧
          Forall (λ t, todo_text t ≠ "" ∧ todo_status t ∈ S03.statuses) new ∧
          count' = (count + length (filter (λ t, todo_status t = "in_progress") new))%nat
    | _ => True
    end.
Proof.
  revert i validated count. induction items as [|item items IH]; intros i validated count.
  { eexists. split; [done|]. exists []. by rewrite app_nil_r, Nat.add_0_r. }
  cbn [S03.validate]. unfold S03.item_get.
  destruct item as [| | | | | |d]; try (by eexists).
  run. set (text := PyStr.strip _). set (status := PyStr.lower _). set (item_id := py_str _).
  destruct (decide (text = "")) as [Htext|Htext]; [by eexists|].
  case_bool_decide as Hstatus; [by eexists|].
  set (t := {| todo_id := item_id; todo_text := text; todo_status := status |}).
  destruct (IH (S i) (validated ++ [t])
              (if decide (status = "in_progress") then S count else count))
    as (r & -> & Hr).
  eexists. split; [done|]. destruct r as [[validated' count']| |]; [|done..].
  destruct Hr as (new & -> & Hlen & Hall & ->).
  exists (t :: new). split_and!.
  - by rewrite <-app_assoc.
  - simpl. by rewrite Hlen.
  - by constructor.
  - rewrite filter_cons. cbn [todo_status t].
    destruct (decide (status = "in_progress")); simpl; lia.
Qed.

(** X8. [TodoManager.update] keeps the stored list well formed and is
    all or nothing.  When it returns, the stored list has one item per
    submitted item, at most 20 items, no empty text, only the three
    statuses and at most one item in progress, the text returned is the
    rendering of that list, and nothing else of the world has changed.
    When it raises, the world, the stored list included, is as before. *)
Theorem update_keeps_valid (items : list pyval) (w : World) :
  match S03.update items w with
  | (Ok text, w') =>
      todo_valid (todo_items w') ∧ text = S03.render (todo_items w') ∧
      length (todo_items w') = length items ∧
      w' = set_todo_items (todo_items w') w
  | (_, w') => w' = w
  end.
Proof.
  unfold S03.update. case_bool_decide as Hlen; [done|]. run.
  destruct (validate_adds items 0 [] 0 w) as (r & -> & Hr).
  destruct r as [[validated count]| |]; [|done..].
  destruct Hr as (new & -> & Hnew & Hall & ->). cbn [app Nat.add].
  case_bool_decide as Hcount; [done|]. cbn.
  split_and!; try done. unfold todo_valid. split_and!; [lia|done|lia].
Qed.

End TodoInvariant.

(** ** The transcripts of s06 *)

Section Transcripts.
Context `{Externals}.

(** Different seconds give different transcript files. *)
Lemma transcript_file_inj (t1 t2 : Z) :
  S06.transcript_file t1 = S06.transcript_file t2 → t1 = t2.
Proof.
  unfold S06.transcript_file. intros Heq%app_inv_head. injection Heq as Heq.
  apply Loop04.append_inj_l, append_inj_r in Heq. by apply (inj pretty).
Qed.

(** X9. A compaction touches no transcript but that of the second it
    runs in: the transcript of every other second, if there is one, keeps
    its content. *)
Theorem other_transcripts_kept (a : Agent) (t : Z) :
  t ≠ time_time (clock_reads (world a)) →
  files (world (S06.compact_store a).2) !! S06.transcript_file t
  = files (world a) !! S06.transcript_file t.
Proof.
  intros Ht.
  assert (S06.transcript_file t ≠ S06.transcript_file (time_time (clock_reads (world a))))
    as Hne by (by intros ?%transcript_file_inj).
  pose proof (Loop06.compact_store_cases a) as Hc. cbn zeta in Hc.
  destruct (can_store (world a)).
  - rewrite Hc. cbn [snd world files stored_world]. by rewrite lookup_insert_ne.
  - destruct Hc as (e & a' & -> & _ & _ & Hfiles). by apply Hfiles.
Qed.

End Transcripts.

(** The transcript of second 100 survives a compaction at second 101. *)
Lemma other_transcripts_kept_witness :
  let E := Script.externals [] [] 101 in
  let a := {| messages := Cases.reused_ids; world := Cases.world_with_transcript |} in
  files (world (S06.compact_store a).2) !! S06.transcript_file 100
  = files (world a) !! S06.transcript_file 100.
Proof.
  intros E a. apply (other_transcripts_kept a 100). vm_compute. discriminate.
Defined.

(** ** The loops *)

Section Loops.
Context `{Externals}.


(** X11. Given that the endpoint answers, the loop of s03 ends with an
    exception only where [json.loads] raises on a payload or where the
    terminal cannot show a line: no error of a tool, a rejected progress
    list included, leaves it.  When it returns, the reply to the last
    request carries no call and the store ends with the assistant message
    that holds the stripped content of that reply. *)
Theorem agent_loop03_outcome (fuel : nat) (a : Agent) :
  match S03.agent_loop fuel a with
  | (Ok _, a') =>
      let r := chat (requests (world a')) in
      rs_tool_calls r = [] ∧
      last (messages a') = Some (assistant_message (PyStr.strip (content_or_empty r)))
  | (Raise e, _) =>
      (∃ tc, parse_arguments tc = inl e) ∨ (∃ line, terminal line = Some e)
  | (OutOfFuel, _) => True
  end.
Proof.
  unfold S03.agent_loop. generalize 0%nat as rounds. revert a.
  induction fuel as [|fuel IH]; intros a rounds; [done|].
  cbn [S03.loop_from]. unfold mbind, M_bind.
  destruct (Loop03.inject_reminder_ok rounds a) as (a2 & Hpre & _).
  rewrite (Loop03.iteration03_eq rounds a a2 Hpre).
  destruct (Loop03.turn03_cases rounds a2) as (res & a3 & -> & Hrq & Hres).
  cbn zeta in *. destruct res as [[[] rounds']|e|]; [| | |done].
  - apply IH.
  - destruct Hres as [Happ Hout]. unfold turn_appends in Happ.
    cbn beta iota. unfold mret, M_ret. cbn beta iota zeta.
    rewrite Hrq. destruct (rs_tool_calls _) as [|tc tcs]; [|done].
    split; [done|]. by rewrite Happ, last_snoc.
  - cbn beta iota. destruct Hres as [(tc & _ & Hraise)|Hline]; [left; eauto|by right].
Qed.


(** X13. Tier 1 keeps what the protocol of the endpoint rests on: the
    number of messages, and the role, the calls and the call id of every
    message; it changes contents only. *)
Theorem micro_compact_keeps_protocol (l : list message) :
  length (S06.micro_compact l) = length l ∧
  role <$> S06.micro_compact l = role <$> l ∧
  tool_calls <$> S06.micro_compact l = tool_calls <$> l ∧
  tool_call_id <$> S06.micro_compact l = tool_call_id <$> l.
Proof.
  split_and!; [|by apply Tier1.micro_compact_fmap..].
  by rewrite <-(length_fmap role), Tier1.micro_compact_fmap, length_fmap.
Qed.

Lemma tool_results_bounded (tcs : list tool_call) (outputs : list string) :
  Forall (λ m, role m = "tool" ∧
               ∃ c, content m = Some c ∧ (PyStr.len c ≤ 50000)%N)
         (tool_results tcs outputs).
Proof.
  unfold tool_results. revert outputs.
  induction tcs as [|tc tcs IH]; intros [|output outputs]; cbn [zip_with];
    constructor; [|apply IH].
  split; [reflexivity|]. eexists. split; [reflexivity|]. rewrite len_take. lia.
Qed.

(** X14. What the loops of s06 and s03 add to the store for the calls of
    a reply, whether they get through all of them or not, is at most one
    tool message per call, each with a content of at most 50000
    characters, however long the results of the tools are. *)
Theorem results_bounded (tcs : list tool_call) (flag : bool) (a : Agent) :
  let bounded new :=
    (length new ≤ length tcs)%nat ∧
    Forall (λ m, role m = "tool" ∧
                 ∃ c, content m = Some c ∧ (PyStr.len c ≤ 50000)%N) new in
  (∃ new, messages (S06.run_tool_calls tcs flag a).2 = messages a ++ new ∧ bounded new) ∧
  (∃ new, messages (S03.run_tool_calls tcs flag a).2 = messages a ++ new ∧ bounded new).
Proof.
  intros bounded. subst bounded. cbn beta. split.
  - destruct (Loop06.run_tool_calls06_any tcs flag a)
      as (r & outputs & a' & Hrun & Hlen & Hmsgs & _).
    rewrite Hrun. cbn [snd]. rewrite Hmsgs.
    eexists. split; [reflexivity|]. split; [|apply tool_results_bounded].
    unfold tool_results. rewrite length_zip_with. lia.
  - destruct (Loop03.run_tool_calls03_any tcs flag a)
      as (r & outputs & a' & Hrun & Hlen & Hmsgs & _).
    rewrite Hrun. cbn [snd]. rewrite Hmsgs.
    eexists. split; [reflexivity|]. split; [|apply tool_results_bounded].
    unfold tool_results. rewrite length_zip_with. lia.
Qed.

End Loops.


(** ** Calls that lack an argument *)

Section MissingArgument.
Context `{Externals}.

(** X15. In the loops that catch what a handler raises, s06 and s03, a
    call to a basic tool whose arguments lack the first required one,
    as when the payload is not JSON and is replaced by the empty object,
    results in an error text that names the missing argument; the tool
    is not run and the world is as before. *)
Theorem missing_argument_reported (tc : tool_call) (kw : gmap string pyval)
    (key : string) (w : World) :
  parse_arguments tc = inr (PDict kw) →
  head (required (tc_name tc)) = Some key →
  kw !! key = None →
  S06.dispatch tc w = (Ok ("错误：'" +:+ key +:+ "'"), w) ∧
  S03.dispatch tc w = (Ok ("错误：'" +:+ key +:+ "'"), w).
Proof.
  intros Hargs Hkey Hkw. unfold S06.dispatch, S03.dispatch. rewrite Hargs.
  unfold S06.TOOL_HANDLERS, S03.TOOL_HANDLERS, base_handlers, required in *.
  repeat case_decide; simplify_eq/=;
    unfold try_except, as_kwargs, handle_bash, handle_read_file, handle_write_file,
      handle_edit_file, kw_item, of_sum;
    unfold mbind, M_bind, mret, M_ret; rewrite Hkw; done.
Qed.
End MissingArgument.

(** A payload cut short by the token limit. *)
Lemma missing_argument_reported_witness :
  let E := Script.externals [] [] 0 in
  let tc := ToolCall "call_1" "write_file" "{path: a.txt, content: 1" in
  S06.dispatch tc Files.with_a_txt = (Ok "错误：'path'", Files.with_a_txt) ∧
  S03.dispatch tc Files.with_a_txt = (Ok "错误：'path'", Files.with_a_txt).
Proof.
  intros E tc. apply (missing_argument_reported tc ∅ "path" Files.with_a_txt).
  - vm_compute. reflexivity.
  - vm_compute. reflexivity.
  - vm_compute. reflexivity.
Defined.
